(** * Session manager of the Lumina frontend

    A shallow embedding of [frontend/src/context/AuthContext.js] (the
    [AuthProvider] component), of the two route gates of [App.js] and of
    the submit handler of [pages/AuthPage.js], followed by the properties
    of the session that the specification states.

    The provider is a React component: its three [useState] cells are the
    session, the functions of one render ([api], [login], [fetchUser], ...)
    close over the values that render saw, and the awaited network calls
    resume later.  The embedding keeps these three things apart: the hook
    cells ([hooks]), the values captured by the last render ([view]) and
    the requests that are still awaited ([inflight]). *)

From stdpp Require Import gmap strings list fin_maps.

Open Scope string_scope.

(** ** JavaScript data *)

(** Field values of the user record the backend returns. *)
Inductive JsVal :=
| JStr (s : string)
| JNum (n : Z)
| JBool (b : bool)
| JNull.

#[global] Instance JsVal_eq_dec : EqDecision JsVal.
Proof. solve_decision. Defined.

(** A user record is a plain object: field name to value. *)
Abbreviation Identity := (gmap string JsVal).

(** What a rejected axios call carries; [detail] is
    [error.response?.data?.detail]. *)
Record AxiosError := mkError { detail : option string }.

#[global] Instance AxiosError_eq_dec : EqDecision AxiosError.
Proof. solve_decision. Defined.

(** How a promise of an async function ends. *)
Inductive Settlement (A : Type) :=
| Resolved (a : A)
| Rejected (e : AxiosError).
Arguments Resolved {A} a.
Arguments Rejected {A} e.

(** ** AuthContext.js *)

Module AuthContext.

(** [const [user, setUser]], [const [token, setToken]],
    [const [loading, setLoading]]. *)
Record Hooks := mkHooks {
  user : option Identity;
  token : option string;
  loading : bool
}.

#[global] Instance Hooks_eq_dec : EqDecision Hooks.
Proof. solve_decision. Defined.

(** The argument of [axios.create]. *)
Record ClientConfig := mkConfig {
  baseURL : string;
  headers : gmap string string
}.

#[global] Instance ClientConfig_eq_dec : EqDecision ClientConfig.
Proof. solve_decision. Defined.

(** [token ? ... : ...] on a value that is a string or [null]: the empty
    string is falsy as well. *)
Definition truthy (t : option string) : bool :=
  match t with
  | Some s => negb (String.eqb s "")
  | None => false
  end.

(** [const API_URL = process.env.REACT_APP_BACKEND_URL + '/api'] *)
Definition API_URL (backend_url : string) : string := backend_url ++ "/api".

(** [api]: the factory of one render, closed over that render's [token]. *)
Definition api (backend_url : string) (tok : option string) : ClientConfig :=
  {| baseURL := API_URL backend_url;
     headers := match tok with
                | Some t => if truthy tok
                            then {[ "Authorization" := "Bearer " ++ t ]}
                            else ∅
                | None => ∅
                end |}.

Inductive Endpoint :=
| AuthMe
| AuthLogin (email password : string)
| AuthRegister (email password username full_name : string).

#[global] Instance Endpoint_eq_dec : EqDecision Endpoint.
Proof. solve_decision. Defined.

(** An outbound call: [api().get('/auth/me')], [api().post('/auth/login', ..)]. *)
Record Request := mkRequest {
  endpoint : Endpoint;
  config : ClientConfig
}.

#[global] Instance Request_eq_dec : EqDecision Request.
Proof. solve_decision. Defined.

(** What the backend answers (section 6 of the specification):
    [/auth/me] the user record, [/auth/login] and [/auth/register]
    [{token, user}]. *)
Inductive ResponseData :=
| UserData (u : Identity)
| TokenUser (t : string) (u : Identity).

Inductive Response :=
| Ok (d : ResponseData)
| Fail (e : AxiosError).

(** Everything the provider does to the outside, in the order it happens. *)
Inductive Event :=
| StorageGet
| StorageSet (t : string)
| StorageRemove
| Http (id : nat) (r : Request)
| ConsoleError (e : AxiosError)
| Settled (id : nat) (s : Settlement Identity).

(** The browser process as far as the provider sees it. *)
Record World := mkWorld {
  backend : string;              (* process.env.REACT_APP_BACKEND_URL *)
  storage : option string;       (* localStorage, key 'token' *)
  hooks : Hooks;                 (* the state cells *)
  view : Hooks;                  (* the values the last render captured *)
  inflight : gmap nat Request;   (* awaited calls *)
  next_id : nat;
  log : list Event
}.

Definition with_hooks (h : Hooks) (w : World) : World :=
  mkWorld (backend w) (storage w) h (view w) (inflight w) (next_id w) (log w).

Definition emit (e : Event) (w : World) : World :=
  mkWorld (backend w) (storage w) (hooks w) (view w) (inflight w) (next_id w)
          (log w ++ [e]).

Definition setUser (u : option Identity) (w : World) : World :=
  with_hooks (mkHooks u (token (hooks w)) (loading (hooks w))) w.

Definition setToken (t : option string) (w : World) : World :=
  with_hooks (mkHooks (user (hooks w)) t (loading (hooks w))) w.

Definition setLoading (b : bool) (w : World) : World :=
  with_hooks (mkHooks (user (hooks w)) (token (hooks w)) b) w.

(** [localStorage.setItem('token', t)] *)
Definition setItem (t : string) (w : World) : World :=
  emit (StorageSet t)
    (mkWorld (backend w) (Some t) (hooks w) (view w) (inflight w) (next_id w) (log w)).

(** [localStorage.removeItem('token')] *)
Definition removeItem (w : World) : World :=
  emit StorageRemove
    (mkWorld (backend w) None (hooks w) (view w) (inflight w) (next_id w) (log w)).

(** An axios call up to its [await]: the request leaves and is awaited. *)
Definition send (r : Request) (w : World) : World :=
  emit (Http (next_id w) r)
    (mkWorld (backend w) (storage w) (hooks w) (view w)
             (<[next_id w := r]> (inflight w)) (S (next_id w)) (log w)).

(** The awaited call [id] has been answered. *)
Definition answered (id : nat) (w : World) : World :=
  mkWorld (backend w) (storage w) (hooks w) (view w)
          (delete id (inflight w)) (next_id w) (log w).

(** [api()] as the functions of the last render see it. *)
Definition currentRequestClient (w : World) : ClientConfig :=
  api (backend w) (token (view w)).

(** [fetchUser] up to its [await]; [token] is the one of the render the
    effect belongs to. *)
Definition fetchUser_start (w : World) : World :=
  if truthy (token (view w))
  then send (mkRequest AuthMe (currentRequestClient w)) w
  else setLoading false w.

(** [fetchUser] from its [await] on: the [try] body, or the [catch]. *)
Definition fetchUser_resume (r : Identity + AxiosError) (w : World)
  : World * Settlement unit :=
  match r with
  | inl data => (setLoading false (setUser (Some data) w), Resolved tt)
  | inr error =>
      (setLoading false
         (setUser None (setToken None (removeItem (emit (ConsoleError error) w)))),
       Resolved tt)
  end.

(** [login] and [register] up to their [await]. *)
Definition login_start (email password : string) (w : World) : World :=
  send (mkRequest (AuthLogin email password) (currentRequestClient w)) w.

Definition register_start (email password username full_name : string)
    (w : World) : World :=
  send (mkRequest (AuthRegister email password username full_name)
                  (currentRequestClient w)) w.

(** [login] and [register] from their [await] on; the two bodies are the
    same.  A rejected call leaves the function at the [await]. *)
Definition login_resume (r : (string * Identity) + AxiosError) (w : World)
  : World * Settlement Identity :=
  match r with
  | inl (newToken, userData) =>
      (setUser (Some userData) (setToken (Some newToken) (setItem newToken w)),
       Resolved userData)
  | inr error => (w, Rejected error)
  end.

Definition register_resume := login_resume.

Definition logout (w : World) : World :=
  setUser None (setToken None (removeItem w)).

(** [{ ...prev, ...userData }]: the fields of [userData] win; spreading
    [null] gives no fields. *)
Definition spread (prev : option Identity) (userData : Identity) : Identity :=
  userData ∪ default ∅ prev.

Definition updateUser (userData : Identity) (w : World) : World :=
  setUser (Some (spread (user (hooks w)) userData)) w.

(** The first render of [AuthProvider] and its effect. *)
Definition mount (backend_url : string) (stored : option string) : World :=
  let h := mkHooks None stored true in
  fetchUser_start (mkWorld backend_url stored h h ∅ 0 [StorageGet]).

(** A later render.  The argument of [useState] is evaluated again (and
    ignored); the functions are rebuilt over the current cells; the effect
    runs again when its dependencies [[token, api]] changed, and [api]
    changes with [token] only. *)
Definition render (w : World) : World :=
  let w' := mkWorld (backend w) (storage w) (hooks w) (hooks w) (inflight w)
                    (next_id w) (log w ++ [StorageGet]) in
  if decide (token (hooks w) = token (view w)) then w' else fetchUser_start w'.

(** What can happen to a mounted provider. *)
Inductive Action :=
| Render
| CallLogin (email password : string)
| CallRegister (email password username full_name : string)
| CallLogout
| CallUpdateUser (userData : Identity)
| Respond (id : nat) (r : Response).

Definition settle (id : nat) (p : World * Settlement Identity) : World :=
  emit (Settled id (snd p)) (fst p).

(** One step; [None] when no call [id] is awaited or the answer has not
    the shape of its endpoint. *)
Definition step (w : World) (a : Action) : option World :=
  match a with
  | Render => Some (render w)
  | CallLogin e p => Some (login_start e p w)
  | CallRegister e p u f => Some (register_start e p u f w)
  | CallLogout => Some (logout w)
  | CallUpdateUser d => Some (updateUser d w)
  | Respond id r =>
      match inflight w !! id with
      | None => None
      | Some q =>
          match endpoint q, r with
          | AuthMe, Ok (UserData u) =>
              Some (fst (fetchUser_resume (inl u) (answered id w)))
          | AuthMe, Fail e =>
              Some (fst (fetchUser_resume (inr e) (answered id w)))
          | AuthLogin _ _, Ok (TokenUser t u) =>
              Some (settle id (login_resume (inl (t, u)) (answered id w)))
          | AuthLogin _ _, Fail e =>
              Some (settle id (login_resume (inr e) (answered id w)))
          | AuthRegister _ _ _ _, Ok (TokenUser t u) =>
              Some (settle id (register_resume (inl (t, u)) (answered id w)))
          | AuthRegister _ _ _ _, Fail e =>
              Some (settle id (register_resume (inr e) (answered id w)))
          | _, _ => None
          end
      end
  end.

Fixpoint run (w : World) (acts : list Action) : option World :=
  match acts with
  | [] => Some w
  | a :: rest =>
      match step w a with
      | Some w' => run w' rest
      | None => None
      end
  end.

End AuthContext.

(** ** App.js: the route gates *)

Module App.
Import AuthContext.

Inductive Page :=
| AuthPage | FeedPage | ExplorePage | ProfilePage | MessagesPage
| NotificationsPage | SearchPage | PostDetailPage.

(** What a gate returns. *)
Inductive Element :=
| LoadingBrand                (* the pulsing logo with "Loading..." *)
| Spinner                     (* the spinning ring *)
| Navigate (to : string)      (* <Navigate to=.. replace /> *)
| Children (p : Page).

(** [ProtectedRoute], reading [{ user, loading }] from the context. *)
Definition ProtectedRoute (children : Page) (ctx : Hooks) : Element :=
  if loading ctx then LoadingBrand
  else if negb (bool_decide (is_Some (user ctx))) then Navigate "/auth"
  else Children children.

(** [PublicRoute] *)
Definition PublicRoute (children : Page) (ctx : Hooks) : Element :=
  if loading ctx then Spinner
  else if bool_decide (is_Some (user ctx)) then Navigate "/"
  else Children children.

(** The session status the gates tell apart. *)
Inductive Status := Resolving | Anonymous | Authenticated.

#[global] Instance Status_eq_dec : EqDecision Status.
Proof. solve_decision. Defined.

Definition status (ctx : Hooks) : Status :=
  if loading ctx then Resolving
  else match user ctx with
       | Some _ => Authenticated
       | None => Anonymous
       end.

(** [AppRoutes]: the route table, in the order of the source. *)
Definition AppRoutes : list (string * (Hooks -> Element)) :=
  [ ("/auth", PublicRoute AuthPage);
    ("/", ProtectedRoute FeedPage);
    ("/explore", ProtectedRoute ExplorePage);
    ("/profile/:username", ProtectedRoute ProfilePage);
    ("/messages", ProtectedRoute MessagesPage);
    ("/messages/:conversationId", ProtectedRoute MessagesPage);
    ("/notifications", ProtectedRoute NotificationsPage);
    ("/search", ProtectedRoute SearchPage);
    ("/post/:postId", ProtectedRoute PostDetailPage);
    ("*", fun _ => Navigate "/") ].

(** The element of the route whose pattern is [path]. *)
Fixpoint route (table : list (string * (Hooks -> Element))) (path : string)
  : option (Hooks -> Element) :=
  match table with
  | [] => None
  | (p, el) :: rest => if String.eqb p path then Some el else route rest path
  end.

End App.

(** ** AuthPage.js: the submit handler *)

Module AuthPage.
Import AuthContext.

Inductive UiEffect :=
| SetLoading (b : bool)
| ToastSuccess (msg : string)
| ToastError (msg : string)
| NavigateTo (path : string).

(** [error.response?.data?.detail || 'Something went wrong'] *)
Definition error_message (error : AxiosError) : string :=
  match detail error with
  | Some d => if String.eqb d "" then "Something went wrong" else d
  | None => "Something went wrong"
  end.

(** [handleSubmit] up to its [await]: which context function it calls. *)
Definition handleSubmit_start (isLogin : bool)
    (email password username fullName : string) : list UiEffect * Action :=
  ([SetLoading true],
   if isLogin then CallLogin email password
   else CallRegister email password username fullName).

(** [handleSubmit] from its [await] on: the rest of the [try], or the
    [catch], then the [finally]. *)
Definition handleSubmit_resume (isLogin : bool) (s : Settlement Identity)
  : list UiEffect * Settlement unit :=
  match s with
  | Resolved _ =>
      ([ToastSuccess (if isLogin then "Welcome back!"
                      else "Account created successfully!");
        NavigateTo "/"; SetLoading false],
       Resolved tt)
  | Rejected error =>
      ([ToastError (error_message error); SetLoading false], Resolved tt)
  end.

End AuthPage.

(** ** components/layout/MainLayout.js *)

Module MainLayout.
Import AuthContext.

(** An entry of [navItems]; the icon plays no part in the logic. *)
Record NavItem := mkNav {
  path : string;
  label : string
}.

#[global] Instance NavItem_eq_dec : EqDecision NavItem.
Proof. solve_decision. Defined.

(** [navItems]; [username_text] is what the template
    [`/profile/${user?.username}`] interpolates. *)
Definition navItems (username_text : string) : list NavItem :=
  [ mkNav "/" "Home";
    mkNav "/search" "Search";
    mkNav "/explore" "Explore";
    mkNav "/notifications" "Notifications";
    mkNav "/messages" "Messages";
    mkNav ("/profile/" ++ username_text) "Profile" ].

(** [isActive], with [location.pathname] as first argument. *)
Definition isActive (pathname path : string) : bool :=
  if String.eqb path "/" then String.eqb pathname "/"
  else String.prefix path pathname.

(** The click handler of the log-out button: [logout(); navigate('/auth')]. *)
Definition handleLogoutClick (w : World) : World * string :=
  (logout w, "/auth").

(** The state cells of [RightSidebarContent]; the entries are plain
    objects. *)
Record Sidebar := mkSidebar {
  suggestedUsers : list (gmap string JsVal);
  trendingTags : list (gmap string JsVal);
  loading : bool
}.

(** [React.useState([])], [React.useState([])], [React.useState(true)]. *)
Definition initialSidebar : Sidebar := mkSidebar [] [] true.

(** [fetchData] from the [await Promise.all([..])] on: both answers are
    needed for the [try] body; the [finally] runs in either case. *)
Definition fetchData_resume
    (usersRes tagsRes : list (gmap string JsVal) + AxiosError) (s : Sidebar)
  : Sidebar :=
  match usersRes, tagsRes with
  | inl users, inl tags => mkSidebar (take 5 users) (take 5 tags) false
  | _, _ => mkSidebar (suggestedUsers s) (trendingTags s) false
  end.

(** [u.id === userId ? { ...u, is_following: true } : u]; a missing field
    reads as [undefined], here [None]. *)
Definition markFollowing (userId : option JsVal) (u : gmap string JsVal)
  : gmap string JsVal :=
  if decide (u !! "id" = userId) then <[ "is_following" := JBool true ]> u
  else u.

(** [handleFollow] from its [await] on. *)
Definition handleFollow_resume (userId : option JsVal)
    (r : unit + AxiosError) (s : Sidebar) : Sidebar :=
  match r with
  | inl _ =>
      mkSidebar (map (markFollowing userId) (suggestedUsers s))
                (trendingTags s) (loading s)
  | inr _ => s
  end.

End MainLayout.

(** * Properties *)

Import AuthContext App AuthPage.

(** Counting in the log. *)
Definition is_me_request (e : Event) : bool :=
  match e with
  | Http _ q => match endpoint q with
                | AuthMe => true
                | _ => false
                end
  | _ => false
  end.

Definition is_storage_read (e : Event) : bool :=
  match e with
  | StorageGet => true
  | _ => false
  end.

Definition is_http (e : Event) : bool :=
  match e with
  | Http _ _ => true
  | _ => false
  end.

Fixpoint count_events (f : Event -> bool) (l : list Event) : nat :=
  match l with
  | [] => 0
  | e :: rest => (if f e then 1 else 0) + count_events f rest
  end.

Definition me_requests (w : World) : nat := count_events is_me_request (log w).
Definition storage_reads (w : World) : nat := count_events is_storage_read (log w).
Definition http_requests (w : World) : nat := count_events is_http (log w).

(** An async function that ends rejected throws at the caller's [await]. *)
Definition raises {A} (s : Settlement A) : bool :=
  match s with
  | Resolved _ => false
  | Rejected _ => true
  end.

(** Sample data of the scenarios of the specification. *)
Definition backend_dev : string := "http://127.0.0.1:8000".
Definition user_a : Identity := {[ "id" := JStr "1"; "username" := JStr "a" ]}.
Definition user_b : Identity := {[ "id" := JStr "2"; "username" := JStr "b" ]}.
Definition bad_credentials : AxiosError := mkError (Some "Invalid credentials").
Definition network_down : AxiosError := mkError None.

(** A session: the persisted token is confirmed, the profile is edited,
    the user logs out and another one logs in. *)
Definition two_users_session : list Action :=
  [Respond 0 (Ok (UserData user_a)); Render;
   CallUpdateUser {[ "bio" := JStr "hi" ]}; CallLogout; Render;
   CallLogin "b@b.com" "secret";
   Respond 1 (Ok (TokenUser "T1" user_b)); Render].

(** The identity fetch that [mount] sent is still awaited. *)
Definition initial_check_awaited (w : World) : Prop :=
  0 < next_id w ∧ ∃ c, inflight w !! 0 = Some (mkRequest AuthMe c).

(** What every step keeps when callers and network are orderly. *)
Definition session_inv (w : World) : Prop :=
  (loading (hooks w) = true → initial_check_awaited w)
  ∧ (is_Some (user (hooks w)) → is_Some (token (hooks w))).

(** Orderly steps: [updateUser] is called only while a user is held, and no
    identity fetch succeeds after the token has been cleared. *)
Definition orderly (w : World) (a : Action) : bool :=
  match a with
  | CallUpdateUser _ => bool_decide (is_Some (user (hooks w)))
  | Respond _ (Ok (UserData _)) => bool_decide (is_Some (token (hooks w)))
  | _ => true
  end.

Fixpoint orderly_run (w : World) (acts : list Action) : bool :=
  match acts with
  | [] => true
  | a :: rest =>
      orderly w a
      && match step w a with
         | Some w' => orderly_run w' rest
         | None => false
         end
  end.

(** Following the redirects of the route table, at most [fuel] of them;
    the targets are looked up as literal routes. *)
Fixpoint follow_redirects (fuel : nat) (el : Element) (ctx : Hooks)
  : option Element :=
  match el with
  | Navigate to =>
      match fuel with
      | 0 => None
      | S n =>
          match route AppRoutes to with
          | Some r => follow_redirects n (r ctx) ctx
          | None => None
          end
      end
  | _ => Some el
  end.

(** The tokens a session can have got hold of: the one persisted when the
    provider mounted and those written to storage since. *)
Definition issued (stored : option string) (l : list Event)
    (tok : option string) : Prop :=
  tok = None ∨ tok = stored ∨ ∃ t, tok = Some t ∧ StorageSet t ∈ l.

(** A header set that is empty or one non-empty bearer. *)
Definition bearer_of (h : gmap string string) (tok : option string) : Prop :=
  (truthy tok = false ∧ h = ∅)
  ∨ ∃ t, tok = Some t ∧ t ≠ "" ∧ h = {[ "Authorization" := "Bearer " ++ t ]}.

(** What the log and the tokens of a world keep: requests are built by
    [api] from tokens the session has got hold of. *)
Definition requests_inv (b : string) (stored : option string) (w : World)
  : Prop :=
  backend w = b
  ∧ issued stored (log w) (token (hooks w))
  ∧ issued stored (log w) (token (view w))
  ∧ ∀ id q, Http id q ∈ log w →
            ∃ tok, config q = api b tok ∧ issued stored (log w) tok.

(** The entries of the navigation that are drawn as active at a location. *)
Definition activeItems (pathname username_text : string)
  : list MainLayout.NavItem :=
  List.filter (fun item => MainLayout.isActive pathname (MainLayout.path item))
              (MainLayout.navItems username_text).

(** The sidebar after its data arrived and some follow clicks were
    answered, each click given by the id clicked and the answer. *)
Definition sidebar_after
    (usersRes tagsRes : list (gmap string JsVal) + AxiosError)
    (follows : list (option JsVal * (unit + AxiosError)))
  : MainLayout.Sidebar :=
  foldl (fun s f => MainLayout.handleFollow_resume (fst f) (snd f) s)
        (MainLayout.fetchData_resume usersRes tagsRes MainLayout.initialSidebar)
        follows.

Section Basics.

Lemma truthy_Some (t : string) : t ≠ "" → truthy (Some t) = true.
Proof.
  intros Hne. unfold truthy.
  destruct (String.eqb_spec t ""); [contradiction | reflexivity].
Qed.

Lemma truthy_is_Some (t : option string) : truthy t = true → is_Some t.
Proof. destruct t; [eauto | discriminate]. Qed.

Lemma api_headers_truthy (b t : string) :
  t ≠ "" → headers (api b (Some t)) = {[ "Authorization" := "Bearer " ++ t ]}.
Proof. intros Hne. unfold api. cbn [headers]. by rewrite truthy_Some. Qed.

Lemma count_events_app (f : Event -> bool) (l k : list Event) :
  count_events f (l ++ k) = count_events f l + count_events f k.
Proof. induction l as [| e l IH]; simpl; [done | rewrite IH; lia]. Qed.

(** A request that was just sent is awaited under the id it was given. *)
Lemma send_awaited (q : Request) (w : World) :
  inflight (send q w) !! next_id w = Some q.
Proof. unfold send. simpl. apply lookup_insert_eq. Qed.

(** A failed login or register answer changes nothing but the log. *)
Lemma failed_answer_keeps_session (w : World) (id : nat) (q : Request)
    (e : AxiosError) :
  inflight w !! id = Some q →
  endpoint q ≠ AuthMe →
  ∃ w', step w (Respond id (Fail e)) = Some w'
        ∧ hooks w' = hooks w ∧ storage w' = storage w ∧ view w' = view w
        ∧ log w' = (log w ++ [Settled id (Rejected e)])%list.
Proof.
  intros Hq Hne. simpl. rewrite Hq.
  destruct (endpoint q); [done | | ]; eexists; (split; [reflexivity |]); done.
Qed.

End Basics.

(** ** Failed login *)

Section FailedLogin.

(** C4.  A [login] call that fails leaves the session as it was: the
    call itself only sends the request, and the rejected answer leaves
    [user], [token] and [loading] (hence the status), the persisted
    token and the rendered values unchanged; nothing is written to or
    removed from storage, and the error the backend gave is what the
    promise of [login] is rejected with.  The same holds when the
    rejection arrives later, in whatever state the session then is. *)
Theorem failed_login_leaves_session_unchanged
    (w : World) (email password : string) (e : AxiosError) :
  ∃ w1 w2,
    step w (CallLogin email password) = Some w1
    ∧ hooks w1 = hooks w ∧ storage w1 = storage w
    ∧ step w1 (Respond (next_id w) (Fail e)) = Some w2
    ∧ user (hooks w2) = user (hooks w)
    ∧ token (hooks w2) = token (hooks w)
    ∧ status (hooks w2) = status (hooks w)
    ∧ hooks w2 = hooks w
    ∧ storage w2 = storage w
    ∧ view w2 = view w
    ∧ log w2 = (log w
                ++ [Http (next_id w)
                      (mkRequest (AuthLogin email password) (currentRequestClient w));
                    Settled (next_id w) (Rejected e)])%list
    ∧ (∀ (w' : World) (id : nat) (q : Request),
         inflight w' !! id = Some q →
         endpoint q = AuthLogin email password →
         ∃ w'', step w' (Respond id (Fail e)) = Some w''
                ∧ hooks w'' = hooks w' ∧ storage w'' = storage w'
                ∧ view w'' = view w').
Proof.
  set (q := mkRequest (AuthLogin email password) (currentRequestClient w)).
  destruct (failed_answer_keeps_session (login_start email password w)
              (next_id w) q e) as (w2 & Hstep & Hh & Hs & Hv & Hl).
  - apply send_awaited.
  - discriminate.
  - exists (login_start email password w), w2.
    rewrite Hh, Hs, Hv, Hl. simpl.
    repeat (split; [done |]). split; [by rewrite <- app_assoc |].
    intros w' id q' Hq' Hep.
    destruct (failed_answer_keeps_session w' id q' e Hq')
      as (w'' & Hstep' & Hh' & Hs' & Hv' & _); [by rewrite Hep |].
    exists w''. done.
Qed.

End FailedLogin.

(** ** Route gates *)

Section RouteGates.

(** C5.  The gates depend on the session status only.  A protected view
    is rendered exactly in status [Authenticated]; while [Resolving] the
    gate shows the loading placeholder and in [Anonymous] it redirects
    to [/auth].  The public-only view is rendered exactly in status
    [Anonymous]; while [Resolving] the gate shows the spinner and in
    [Authenticated] it redirects to [/], which is a protected route. *)
Theorem route_gates_follow_status (p : Page) (ctx : Hooks) :
  ProtectedRoute p ctx
    = match status ctx with
      | Resolving => LoadingBrand
      | Anonymous => Navigate "/auth"
      | Authenticated => Children p
      end
  ∧ PublicRoute p ctx
    = match status ctx with
      | Resolving => Spinner
      | Anonymous => Children p
      | Authenticated => Navigate "/"
      end
  ∧ (ProtectedRoute p ctx = Children p ↔ status ctx = Authenticated)
  ∧ (PublicRoute p ctx = Children p ↔ status ctx = Anonymous)
  ∧ route AppRoutes "/auth" = Some (PublicRoute AuthPage)
  ∧ route AppRoutes "/" = Some (ProtectedRoute FeedPage).
Proof.
  unfold ProtectedRoute, PublicRoute, status.
  destruct ctx as [[u|] t [|]]; simpl; repeat split; intros; done.
Qed.

End RouteGates.

(** ** The initial check *)

Section Initialize.

(** C6.  Mounting with a persisted token sends one identity fetch and
    resolves; when that fetch fails, whatever the error, the session is
    anonymous without identity or token and the persisted token is
    removed; the render that follows keeps it so and sends nothing.
    Mounting again from the storage that is left is mounting without a
    persisted token. *)
Theorem initialize_with_rejected_token
    (backend_url t : string) (e : AxiosError) :
  t ≠ "" →
  ∃ w1 w2,
    status (hooks (mount backend_url (Some t))) = Resolving
    ∧ inflight (mount backend_url (Some t))
      = {[ 0 := mkRequest AuthMe (api backend_url (Some t)) ]}
    ∧ step (mount backend_url (Some t)) (Respond 0 (Fail e)) = Some w1
    ∧ status (hooks w1) = Anonymous
    ∧ user (hooks w1) = None
    ∧ token (hooks w1) = None
    ∧ storage w1 = None
    ∧ step w1 Render = Some w2
    ∧ hooks w2 = hooks w1 ∧ view w2 = hooks w1
    ∧ storage w2 = None ∧ inflight w2 = ∅
    ∧ mount backend_url (storage w1) = mount backend_url None
    ∧ mount backend_url (storage w2) = mount backend_url None
    ∧ status (hooks (mount backend_url None)) = Anonymous
    ∧ inflight (mount backend_url None) = ∅.
Proof.
  intros Hne.
  assert (Hm : mount backend_url (Some t)
               = mkWorld backend_url (Some t) (mkHooks None (Some t) true)
                   (mkHooks None (Some t) true)
                   {[ 0 := mkRequest AuthMe (api backend_url (Some t)) ]} 1
                   [StorageGet; Http 0 (mkRequest AuthMe (api backend_url (Some t)))]).
  { unfold mount, fetchUser_start. cbn [view token].
    rewrite truthy_Some by done. reflexivity. }
  rewrite Hm. eexists _, _.
  split; [reflexivity |]. split; [reflexivity |].
  split.
  { cbn [step inflight]. rewrite lookup_singleton_eq. reflexivity. }
  repeat (split; [reflexivity |]). reflexivity.
Qed.

(** C6, at a token and an error. *)
Lemma initialize_with_rejected_token_witness :
  "T0" ≠ ""
  ∧ ∃ w1, step (mount backend_dev (Some "T0")) (Respond 0 (Fail network_down)) = Some w1
          ∧ status (hooks w1) = Anonymous ∧ storage w1 = None
          ∧ mount backend_dev (storage w1) = mount backend_dev None.
Proof.
  assert (Hne : "T0" ≠ "") by discriminate.
  split; [exact Hne |].
  destruct (initialize_with_rejected_token backend_dev "T0" network_down Hne)
    as (w1 & w2 & _ & _ & Hstep & Hst & _ & _ & Hs & _ & _ & _ & _ & _ & Hm & _).
  exists w1. auto.
Defined.

End Initialize.

(** ** The request client *)

Section RequestClient.


End RequestClient.

(** ** A login answer that arrives after logout *)

Section LateLoginAnswer.

(** A successful answer to an awaited login or register call is applied,
    in whatever state it arrives. *)
Lemma login_answer_applies (w : World) (id : nat) (q : Request)
    (t : string) (u : Identity) :
  inflight w !! id = Some q →
  endpoint q ≠ AuthMe →
  ∃ w', step w (Respond id (Ok (TokenUser t u))) = Some w'
        ∧ hooks w' = mkHooks (Some u) (Some t) (loading (hooks w))
        ∧ storage w' = Some t
        ∧ view w' = view w
        ∧ backend w' = backend w
        ∧ inflight w' = delete id (inflight w)
        ∧ log w' = (log w ++ [StorageSet t; Settled id (Resolved u)])%list.
Proof.
  intros Hq Hne. simpl. rewrite Hq.
  destruct (endpoint q); [done | |]; eexists; (split; [reflexivity |]);
    simpl; rewrite <- ?app_assoc; done.
Qed.

(** C1 (as the code has it).  [login] is called, then, in any
    interleaving, [logout] runs, and the login call is still awaited.
    Its successful answer is then not discarded: token, identity and
    persisted token become those of the answer, and with the initial
    check over the status is [Authenticated].  Only a failed answer
    leaves the session as it was. *)
Theorem login_answer_applies_after_logout
    (w w' : World) (email password : string) (pre post : list Action)
    (t : string) (u : Identity) (e : AxiosError) :
  run (login_start email password w) (pre ++ CallLogout :: post) = Some w' →
  inflight w' !! next_id w
    = Some (mkRequest (AuthLogin email password) (currentRequestClient w)) →
  (∃ w'', step w' (Respond (next_id w) (Ok (TokenUser t u))) = Some w''
          ∧ token (hooks w'') = Some t
          ∧ user (hooks w'') = Some u
          ∧ storage w'' = Some t
          ∧ status (hooks w'')
            = (if loading (hooks w') then Resolving else Authenticated)
          ∧ last (log w'') = Some (Settled (next_id w) (Resolved u)))
  ∧ (∃ w'', step w' (Respond (next_id w) (Fail e)) = Some w''
            ∧ hooks w'' = hooks w' ∧ storage w'' = storage w').
Proof.
  intros _ Hq. split.
  - destruct (login_answer_applies w' (next_id w) _ t u Hq)
      as (w'' & Hstep & Hh & Hs & _ & _ & _ & Hl); [discriminate |].
    exists w''. rewrite Hh, Hs, Hl. unfold status. simpl.
    repeat split; try done.
    change [StorageSet t; Settled (next_id w) (Resolved u)]
      with ([StorageSet t] ++ [Settled (next_id w) (Resolved u)])%list.
    rewrite app_assoc. apply last_snoc.
  - destruct (failed_answer_keeps_session w' (next_id w) _ e Hq)
      as (w'' & Hstep & Hh & Hs & _); [discriminate |].
    exists w''. done.
Qed.

(** C1, on the scenario of the specification: anonymous, login sent,
    logout, then the answer [{token: "T1", user}]. *)
Lemma login_answer_applies_after_logout_witness :
  ∃ w'', step (logout (login_start "a@b.com" "secret" (mount backend_dev None)))
              (Respond 0 (Ok (TokenUser "T1" user_a))) = Some w''
         ∧ token (hooks w'') = Some "T1"
         ∧ status (hooks w'') = Authenticated.
Proof.
  destruct (login_answer_applies_after_logout
              (mount backend_dev None)
              (logout (login_start "a@b.com" "secret" (mount backend_dev None)))
              "a@b.com" "secret" [] [] "T1" user_a network_down)
    as [(w'' & Hstep & Ht & _ & _ & Hst & _) _].
  - reflexivity.
  - reflexivity.
  - exists w''. repeat split; assumption.
Defined.

(** C1 as stated fails: after login, logout and the late answer the
    session is authenticated with the token of the answer, persisted. *)
Lemma logout_during_login_counterexample :
  ∃ w, run (mount backend_dev None)
           [Render; CallLogin "a@b.com" "secret"; CallLogout;
            Respond 0 (Ok (TokenUser "T1" user_a))] = Some w
       ∧ status (hooks w) = Authenticated
       ∧ token (hooks w) = Some "T1"
       ∧ user (hooks w) = Some user_a
       ∧ storage w = Some "T1"
       ∧ status (hooks w) ≠ Anonymous.
Proof.
  eexists. split; [reflexivity |]. repeat split; try reflexivity. discriminate.
Qed.

End LateLoginAnswer.

(** ** The request client after login *)

Section ClientAfterLogin.

(** After a render the factory is the one of the current token. *)
Lemma render_rebuilds_client (w : World) :
  currentRequestClient (render w) = api (backend w) (token (hooks w)).
Proof.
  unfold render, fetchUser_start, currentRequestClient.
  repeat case_match; reflexivity.
Qed.

(** C2 (as the code has it).  When the answer of a login call installs
    the token [t], the factory in scope is still the one of the last
    render and returns what it returned before; the factory of the
    render that follows bears [t]. *)
Theorem request_client_after_login
    (w : World) (id : nat) (q : Request) (t : string) (u : Identity) :
  inflight w !! id = Some q →
  endpoint q ≠ AuthMe →
  t ≠ "" →
  ∃ w1, step w (Respond id (Ok (TokenUser t u))) = Some w1
        ∧ token (hooks w1) = Some t
        ∧ currentRequestClient w1 = currentRequestClient w
        ∧ headers (currentRequestClient (render w1))
          = {[ "Authorization" := "Bearer " ++ t ]}
        ∧ currentRequestClient (render w1) = api (backend w) (Some t).
Proof.
  intros Hq Hne Ht.
  destruct (login_answer_applies w id q t u Hq Hne)
    as (w1 & Hstep & Hh & _ & Hv & Hb & _).
  exists w1. rewrite render_rebuilds_client, Hh, Hb.
  unfold currentRequestClient at 1 2. rewrite Hv, Hb. cbn [token].
  repeat split; try done. by apply api_headers_truthy.
Qed.

(** C2, for a session on token [T0] that logs in again and gets [T1]. *)
Lemma request_client_after_login_witness :
  ∃ w w1, run (mount backend_dev (Some "T0"))
              [Respond 0 (Ok (UserData user_a)); Render;
               CallLogin "b@b.com" "secret"] = Some w
          ∧ step w (Respond 1 (Ok (TokenUser "T1" user_b))) = Some w1
          ∧ headers (currentRequestClient (render w1))
            = {[ "Authorization" := "Bearer T1" ]}.
Proof.
  destruct (run (mount backend_dev (Some "T0"))
              [Respond 0 (Ok (UserData user_a)); Render;
               CallLogin "b@b.com" "secret"]) as [w|] eqn:Hrun;
    [| vm_compute in Hrun; discriminate].
  assert (Hq : inflight w !! 1
               = Some (mkRequest (AuthLogin "b@b.com" "secret")
                         (api backend_dev (Some "T0")))).
  { injection Hrun as <-. reflexivity. }
  destruct (request_client_after_login w 1 _ "T1" user_b Hq)
    as (w1 & Hstep & _ & _ & Hh & _); [discriminate | discriminate |].
  exists w, w1. split; [reflexivity |]. split; [exact Hstep | exact Hh].
Defined.

(** C2 as stated fails: right after the answer, before any render, the
    factory still sends the prior token [T0]. *)
Lemma stale_client_after_login_counterexample :
  ∃ w, run (mount backend_dev (Some "T0"))
           [Respond 0 (Ok (UserData user_a)); Render;
            CallLogin "b@b.com" "secret";
            Respond 1 (Ok (TokenUser "T1" user_b))] = Some w
       ∧ token (hooks w) = Some "T1"
       ∧ storage w = Some "T1"
       ∧ headers (currentRequestClient w) !! "Authorization" = Some "Bearer T0"
       ∧ headers (currentRequestClient w) !! "Authorization" ≠ Some "Bearer T1".
Proof.
  eexists. split; [reflexivity |]. repeat split; try reflexivity. discriminate.
Qed.

End ClientAfterLogin.

(** ** The request client when no token is held *)

Section ClientWithoutToken.




End ClientWithoutToken.

(** ** The session invariant *)

Section SessionInvariant.

Lemma mount_session_inv (backend_url : string) (stored : option string) :
  session_inv (mount backend_url stored).
Proof.
  unfold mount, fetchUser_start, session_inv, initial_check_awaited.
  cbn [view token]. destruct (truthy stored); simpl.
  - split; [| by intros [? ?]]. intros _. split; [lia |].
    eexists. apply lookup_insert_eq.
  - split; [done | by intros [? ?]].
Qed.

(** Sending a request keeps the invariant: the new id is not 0 while the
    initial check is awaited. *)
Lemma send_session_inv (q : Request) (w : World) :
  session_inv w → session_inv (send q w).
Proof.
  intros [Hl Hu]. split; [| exact Hu].
  simpl. intros Hload. destruct (Hl Hload) as [Hn [c Hc]].
  split; [simpl; lia |]. exists c. simpl.
  rewrite lookup_insert_ne by lia. exact Hc.
Qed.

Lemma render_session_inv (w : World) : session_inv w → session_inv (render w).
Proof.
  intros Hinv. unfold render, fetchUser_start. cbn [view token].
  assert (Hinv' : session_inv
            (mkWorld (backend w) (storage w) (hooks w) (hooks w) (inflight w)
                     (next_id w) (log w ++ [StorageGet]))) by exact Hinv.
  destruct (decide _); [exact Hinv' |].
  destruct (truthy _); [by apply send_session_inv |].
  destruct Hinv as [_ Hu]. split; [done | exact Hu].
Qed.

(** One orderly step keeps the invariant. *)
Lemma step_session_inv (w w' : World) (a : Action) :
  step w a = Some w' → orderly w a = true → session_inv w → session_inv w'.
Proof.
  intros Hstep Hord Hinv. destruct a as [| e p | e p n f | | d | id r]; simpl in Hstep.
  - injection Hstep as <-. by apply render_session_inv.
  - injection Hstep as <-. by apply send_session_inv.
  - injection Hstep as <-. by apply send_session_inv.
  - injection Hstep as <-. destruct Hinv as [Hl _].
    split; [exact Hl | by intros [? ?]].
  - injection Hstep as <-. destruct Hinv as [Hl Hu].
    apply bool_decide_eq_true in Hord.
    split; [exact Hl | intros _; exact (Hu Hord)].
  - destruct (inflight w !! id) as [q|] eqn:Hq; [| done].
    destruct Hinv as [Hl Hu].
    assert (Hkeep : endpoint q ≠ AuthMe →
              loading (hooks w) = true →
              initial_check_awaited (answered id w)).
    { intros Hne Hload. destruct (Hl Hload) as [Hn [c Hc]].
      split; [exact Hn |]. exists c. simpl.
      rewrite lookup_delete_ne; [exact Hc |].
      intros ->. rewrite Hq in Hc. injection Hc as ->. by apply Hne. }
    destruct (endpoint q) eqn:Hep, r as [[u | t u] | err];
      simplify_eq; simpl in *.
    + apply bool_decide_eq_true in Hord. split; [done | by intros _].
    + split; [done | by intros [? ?]].
    + split; [apply Hkeep; done | by eauto].
    + split; [apply Hkeep; done | exact Hu].
    + split; [apply Hkeep; done | by eauto].
    + split; [apply Hkeep; done | exact Hu].
Qed.

Lemma run_session_inv (acts : list Action) (w w' : World) :
  run w acts = Some w' → orderly_run w acts = true →
  session_inv w → session_inv w'.
Proof.
  revert w. induction acts as [| a rest IH]; intros w Hrun Hord Hinv; simpl in *.
  - by injection Hrun as <-.
  - apply andb_true_iff in Hord as [Ha Hrest].
    destruct (step w a) as [w1|] eqn:Hstep; [| done].
    apply (IH w1); [done | done |]. by apply (step_session_inv w w1 a).
Qed.

(** C3 (as the code has it).  In every state reached from mounting by
    orderly steps: the status is [Resolving] only while the identity
    fetch sent at mount is awaited; a status [Authenticated] has both
    token and identity; once the initial check is over the status is
    [Authenticated] exactly when both are present; it is [Anonymous]
    exactly when loading is over and no identity is held; and a render
    shows the gates these very values. *)
Theorem session_invariant_of_orderly_runs
    (backend_url : string) (stored : option string)
    (acts : list Action) (w : World) :
  run (mount backend_url stored) acts = Some w →
  orderly_run (mount backend_url stored) acts = true →
  (status (hooks w) = Resolving → initial_check_awaited w)
  ∧ (status (hooks w) = Authenticated →
     is_Some (token (hooks w)) ∧ is_Some (user (hooks w)))
  ∧ (status (hooks w) ≠ Resolving →
     (status (hooks w) = Authenticated
      ↔ is_Some (token (hooks w)) ∧ is_Some (user (hooks w))))
  ∧ (status (hooks w) = Anonymous
     ↔ loading (hooks w) = false ∧ user (hooks w) = None)
  ∧ view (render w) = hooks w.
Proof.
  intros Hrun Hord.
  destruct (run_session_inv acts _ w Hrun Hord (mount_session_inv _ _))
    as [Hl Hu].
  assert (Hview : view (render w) = hooks w).
  { unfold render, fetchUser_start. repeat case_match; reflexivity. }
  assert (Hauth : status (hooks w) = Authenticated →
                  is_Some (token (hooks w)) ∧ is_Some (user (hooks w))).
  { unfold status. destruct (loading (hooks w)); [done |].
    destruct (user (hooks w)) as [u|]; [| done].
    intros _. split; [apply Hu |]; eauto. }
  split.
  { unfold status. intros Hs. apply Hl.
    destruct (loading (hooks w)); [done |]. by destruct (user (hooks w)). }
  split; [exact Hauth |].
  split.
  { intros Hnr. split; [exact Hauth |]. intros [_ [u Hsome]].
    unfold status in *. rewrite Hsome. by destruct (loading (hooks w)). }
  split; [| exact Hview].
  unfold status.
  destruct (loading (hooks w)), (user (hooks w)); split; try done;
    intros [? ?]; done.
Qed.

(** C3, on [two_users_session] from a persisted token. *)
Lemma session_invariant_of_orderly_runs_witness :
  ∃ w, run (mount backend_dev (Some "T0")) two_users_session = Some w
       ∧ (status (hooks w) = Authenticated →
          is_Some (token (hooks w)) ∧ is_Some (user (hooks w))).
Proof.
  destruct (run (mount backend_dev (Some "T0")) two_users_session)
    as [w|] eqn:Hrun; [| vm_compute in Hrun; discriminate].
  exists w. split; [reflexivity |].
  destruct (session_invariant_of_orderly_runs backend_dev (Some "T0")
              two_users_session w Hrun) as (_ & Hauth & _).
  - vm_compute. reflexivity.
  - exact Hauth.
Defined.

(** C3 as stated fails: [updateUser] called while anonymous gives an
    identity, so status [Authenticated], with no token. *)
Lemma update_while_anonymous_counterexample :
  ∃ w, run (mount backend_dev None)
           [Render; CallUpdateUser {[ "bio" := JStr "hi" ]}; Render] = Some w
       ∧ status (hooks w) = Authenticated
       ∧ status (view w) = Authenticated
       ∧ token (hooks w) = None
       ∧ storage w = None
       ∧ ¬ (status (hooks w) = Authenticated
            ↔ is_Some (token (hooks w)) ∧ is_Some (user (hooks w))).
Proof.
  eexists. split; [reflexivity |]. repeat split; try reflexivity.
  intros [H _]. destruct (H eq_refl) as [[t Ht] _]. discriminate.
Qed.

End SessionInvariant.

(** ** Expected failures *)

Section ExpectedFailures.

(** C7 (as the code has it).  [login] and [register] have no [catch]: a
    rejected call ends their promise rejected with the backend's error,
    the session untouched, and that rejection is thrown at the [await]
    of the caller.  The only caller, [handleSubmit] of the auth page,
    catches it, shows the backend's message or the fallback, and never
    throws itself.  [fetchUser] catches its own failure and ends
    resolved with the session anonymous and the persisted token gone. *)
Theorem expected_failures_reach_the_caller
    (w : World) (e : AxiosError) (isLogin : bool)
    (email password username fullName : string) :
  ∃ w1 w2,
    step w (snd (handleSubmit_start isLogin email password username fullName))
      = Some w1
    ∧ step w1 (Respond (next_id w) (Fail e)) = Some w2
    ∧ hooks w2 = hooks w
    ∧ storage w2 = storage w
    ∧ last (log w2) = Some (Settled (next_id w) (Rejected e))
    ∧ login_resume (inr e) w = (w, Rejected e)
    ∧ register_resume (inr e) w = (w, Rejected e)
    ∧ handleSubmit_resume isLogin (Rejected e)
      = ([ToastError (error_message e); SetLoading false], Resolved tt)
    ∧ raises (snd (handleSubmit_resume isLogin (Rejected e))) = false
    ∧ error_message (mkError None) = "Something went wrong"
    ∧ error_message bad_credentials = "Invalid credentials"
    ∧ raises (snd (fetchUser_resume (inr e) w)) = false
    ∧ status (hooks (fst (fetchUser_resume (inr e) w))) = Anonymous
    ∧ token (hooks (fst (fetchUser_resume (inr e) w))) = None
    ∧ storage (fst (fetchUser_resume (inr e) w)) = None.
Proof.
  set (call := snd (handleSubmit_start isLogin email password username fullName)).
  assert (Hcall : ∃ q, step w call = Some (send q w) ∧ endpoint q ≠ AuthMe).
  { subst call. destruct isLogin; simpl; eexists; split; done. }
  destruct Hcall as (q & Hstep & Hne).
  destruct (failed_answer_keeps_session (send q w) (next_id w) q e
              (send_awaited q w) Hne) as (w2 & Hstep2 & Hh & Hs & _ & Hl).
  exists (send q w), w2. rewrite Hh, Hs, Hl, last_snoc.
  repeat split; done.
Qed.

(** C7 as stated fails: with bad credentials the promise of [login] is
    rejected, that is, [login] throws at the [await] in the auth page. *)
Lemma login_rejection_counterexample :
  ∃ w, run (mount backend_dev None)
           [Render; CallLogin "a@b.com" "wrong"; Respond 0 (Fail bad_credentials)]
       = Some w
       ∧ last (log w) = Some (Settled 0 (Rejected bad_credentials))
       ∧ snd (login_resume (inr bad_credentials) (mount backend_dev None))
         = Rejected bad_credentials
       ∧ raises (snd (login_resume (inr bad_credentials) (mount backend_dev None)))
         = true.
Proof. eexists. repeat split; reflexivity. Qed.

End ExpectedFailures.

(** ** When the identity check runs *)

Section IdentityCheck.

Lemma mount_requests (backend_url : string) (stored : option string) :
  me_requests (mount backend_url stored) = (if truthy stored then 1 else 0)
  ∧ storage_reads (mount backend_url stored) = 1.
Proof.
  unfold mount, fetchUser_start. cbn [view token].
  destruct (truthy stored); split; reflexivity.
Qed.

Lemma render_log (w : World) :
  log (render w)
  = (log w ++ StorageGet ::
       (if decide (token (hooks w) = token (view w)) then []
        else if truthy (token (hooks w))
             then [Http (next_id w)
                     (mkRequest AuthMe (api (backend w) (token (hooks w))))]
             else []))%list.
Proof.
  unfold render, fetchUser_start. cbn [view token].
  destruct (decide _); [reflexivity |].
  destruct (truthy _); [| reflexivity].
  simpl. by rewrite <- app_assoc.
Qed.

(** Every step but a render appends no request for the identity and no
    storage read. *)
Lemma other_steps_log (w w' : World) (a : Action) :
  step w a = Some w' → a ≠ Render →
  ∃ l, log w' = (log w ++ l)%list
       ∧ count_events is_me_request l = 0
       ∧ count_events is_storage_read l = 0.
Proof.
  intros Hstep Hne.
  destruct a as [| e p | e p n f | | d | id r]; simpl in Hstep; [done | ..].
  - injection Hstep as <-. eexists. split; [reflexivity | done].
  - injection Hstep as <-. eexists. split; [reflexivity | done].
  - injection Hstep as <-. eexists. split; [reflexivity | done].
  - injection Hstep as <-. exists []. by rewrite app_nil_r.
  - destruct (inflight w !! id) as [q|]; [| done].
    destruct (endpoint q), r as [[u | t u] | err]; simplify_eq; simpl.
    + exists []. by rewrite app_nil_r.
    + eexists. rewrite <- app_assoc. split; [reflexivity | done].
    + eexists. rewrite <- app_assoc. split; [reflexivity | done].
    + eexists. split; [reflexivity | done].
    + eexists. rewrite <- app_assoc. split; [reflexivity | done].
    + eexists. split; [reflexivity | done].
Qed.

(** C8 (as the code has it).  The effect depends on the token.  A step
    sends an identity fetch exactly when it is a render whose token is
    truthy and differs from the token of the render before, and then the
    fetch carries the current token; a step reads the persisted token
    exactly when it is a render, and the value read is not used: the
    token cell stays as it was. *)
Theorem identity_check_follows_token_changes (w w' : World) (a : Action) :
  step w a = Some w' →
  (me_requests w' = S (me_requests w)
   ↔ a = Render ∧ token (hooks w) ≠ token (view w)
     ∧ truthy (token (hooks w)) = true)
  ∧ (me_requests w' = me_requests w ∨ me_requests w' = S (me_requests w))
  ∧ (a = Render ∧ token (hooks w) ≠ token (view w)
     ∧ truthy (token (hooks w)) = true →
     inflight w' !! next_id w
     = Some (mkRequest AuthMe (api (backend w) (token (hooks w)))))
  ∧ (storage_reads w' = S (storage_reads w) ↔ a = Render)
  ∧ (storage_reads w' = storage_reads w ∨ storage_reads w' = S (storage_reads w))
  ∧ (a = Render → token (hooks w') = token (hooks w)).
Proof.
  intros Hstep. unfold me_requests, storage_reads.
  assert (Hcase : a = Render ∨ a ≠ Render)
    by (destruct a; (by left) || (by right)).
  destruct Hcase as [-> | Hne].
  - injection Hstep as <-. rewrite render_log.
    rewrite !count_events_app.
    assert (Htok : token (hooks (render w)) = token (hooks w)).
    { unfold render, fetchUser_start. repeat case_match; reflexivity. }
    assert (Hsent : token (hooks w) ≠ token (view w) →
              truthy (token (hooks w)) = true →
              inflight (render w) !! next_id w
              = Some (mkRequest AuthMe (api (backend w) (token (hooks w))))).
    { intros Hneq Htr. unfold render, fetchUser_start. cbn [view token].
      destruct (decide _); [done |]. rewrite Htr.
      unfold send, currentRequestClient. simpl. apply lookup_insert_eq. }
    destruct (decide (token (hooks w) = token (view w))) as [Heq | Hneq];
      [| destruct (truthy (token (hooks w))) eqn:Htr]; cbn;
      intuition (try lia; try done; try congruence).
  - destruct (other_steps_log w w' a Hstep Hne) as (l & -> & Hme & Hrd).
    rewrite !count_events_app, Hme, Hrd.
    intuition (try lia; try done; try congruence).
Qed.

(** C8, on the render that follows a second login. *)
Lemma identity_check_follows_token_changes_witness :
  ∃ w, run (mount backend_dev (Some "T0"))
           [Respond 0 (Ok (UserData user_a)); Render;
            CallLogin "b@b.com" "secret";
            Respond 1 (Ok (TokenUser "T1" user_b))] = Some w
       ∧ step w Render = Some (render w)
       ∧ inflight (render w) !! next_id w
         = Some (mkRequest AuthMe (api (backend w) (token (hooks w)))).
Proof.
  eexists. split; [reflexivity |]. split; [reflexivity |].
  eapply (identity_check_follows_token_changes _ _ Render).
  - reflexivity.
  - split; [reflexivity |]. split; [discriminate | reflexivity].
Defined.

(** C8 as stated fails: a session mounted on token [T0] that logs in
    again fetches the identity a second time, with the new token, and
    has read the persisted token at all three renders. *)
Lemma second_identity_fetch_counterexample :
  ∃ w, run (mount backend_dev (Some "T0"))
           [Respond 0 (Ok (UserData user_a)); Render;
            CallLogin "b@b.com" "secret";
            Respond 1 (Ok (TokenUser "T1" user_b)); Render] = Some w
       ∧ me_requests w = 2
       ∧ storage_reads w = 3
       ∧ inflight w !! 2
         = Some (mkRequest AuthMe
                   (mkConfig "http://127.0.0.1:8000/api"
                             {[ "Authorization" := "Bearer T1" ]})).
Proof. eexists. repeat split; reflexivity. Qed.

End IdentityCheck.

(** ** Updating the identity *)

Section UpdateIdentity.

Lemma spread_lookup_new (prev : option Identity) (userData : Identity)
    (k : string) (v : JsVal) :
  userData !! k = Some v → spread prev userData !! k = Some v.
Proof. intros Hk. unfold spread. by apply lookup_union_Some_l. Qed.

Lemma spread_lookup_old (prev : option Identity) (userData : Identity)
    (k : string) :
  userData !! k = None → spread prev userData !! k = default ∅ prev !! k.
Proof. intros Hk. unfold spread. by apply lookup_union_r. Qed.

(** C9 (as the code has it).  [updateUser] replaces the identity by the
    shallow merge of the previous one and the given fields: given fields
    win, the others stay, and an absent identity counts as one without
    fields.  It sends nothing and touches neither token, loading flag,
    persisted token nor log; called while authenticated it leaves the
    session authenticated and keeps the invariant.  It does not look at
    the status: called with no identity held, the given fields become
    the identity. *)
Theorem updateUser_merges_fields (w : World) (userData : Identity) :
  ∃ w' merged,
    step w (CallUpdateUser userData) = Some w'
    ∧ user (hooks w') = Some merged
    ∧ (∀ k v, userData !! k = Some v → merged !! k = Some v)
    ∧ (∀ k, userData !! k = None →
            merged !! k = default ∅ (user (hooks w)) !! k)
    ∧ (user (hooks w) = None → merged = userData)
    ∧ token (hooks w') = token (hooks w)
    ∧ loading (hooks w') = loading (hooks w)
    ∧ storage w' = storage w
    ∧ view w' = view w
    ∧ inflight w' = inflight w
    ∧ log w' = log w
    ∧ http_requests w' = http_requests w
    ∧ (status (hooks w) = Authenticated → status (hooks w') = Authenticated)
    ∧ (is_Some (user (hooks w)) → session_inv w → session_inv w').
Proof.
  exists (updateUser userData w), (spread (user (hooks w)) userData).
  split; [reflexivity |]. split; [reflexivity |].
  split; [intros k v; apply spread_lookup_new |].
  split; [intros k; apply spread_lookup_old |].
  split.
  { intros ->. unfold spread. simpl. apply (right_id_L ∅ (∪)). }
  repeat (split; [reflexivity |]).
  split.
  { unfold status. simpl. by destruct (loading (hooks w)). }
  intros Hsome [Hl Hu]. split; [exact Hl |]. intros _. exact (Hu Hsome).
Qed.

(** C9 as stated fails: after logout, [updateUser] is neither refused
    nor without effect; an identity is held although no token is. *)
Lemma update_after_logout_counterexample :
  ∃ w w', run (mount backend_dev (Some "T0"))
              [Respond 0 (Ok (UserData user_a)); Render; CallLogout; Render]
          = Some w
          ∧ status (hooks w) = Anonymous
          ∧ step w (CallUpdateUser {[ "full_name" := JStr "A" ]}) = Some w'
          ∧ user (hooks w') = Some {[ "full_name" := JStr "A" ]}
          ∧ user (hooks w') ≠ user (hooks w)
          ∧ token (hooks w') = None
          ∧ storage w' = None
          ∧ status (hooks w') = Authenticated.
Proof.
  eexists _, _. split; [reflexivity |]. split; [reflexivity |].
  split; [reflexivity |]. split; [vm_compute; reflexivity |].
  repeat split; try reflexivity. discriminate.
Qed.

End UpdateIdentity.

(** * Further properties of the session manager *)

(** Case analysis on one step: the six actions, and for an answer the
    endpoint of the awaited call and the shape of the answer. *)
Ltac step_cases Hstep :=
  match type of Hstep with
  | step ?w ?a = Some _ =>
      destruct a as [| ? ? | ? ? ? ? | | ? | ?id ?r]; simpl in Hstep;
      [ | | | | |
        let q := fresh "q" in
        destruct (inflight w !! id) as [q|] eqn:?; [| discriminate Hstep];
        destruct (endpoint q) eqn:?, r as [[?|? ?]|?];
        try discriminate Hstep ];
      injection Hstep as <-
  end.

(** No request is among the events of a short explicit list. *)
Ltac no_http_in Hin :=
  repeat (apply elem_of_cons in Hin as [Hin | Hin]; [discriminate Hin |]);
  by apply elem_of_nil in Hin.

(** ** What every run keeps *)

Section SessionRuns.

Lemma step_token_persisted (w w' : World) (a : Action) :
  step w a = Some w' →
  token (hooks w) = storage w → token (hooks w') = storage w'.
Proof.
  intros Hstep Heq. step_cases Hstep; try done.
  unfold render, fetchUser_start. by repeat case_match.
Qed.

Lemma mount_token_persisted (backend_url : string) (stored : option string) :
  token (hooks (mount backend_url stored)) = storage (mount backend_url stored).
Proof. unfold mount, fetchUser_start. by repeat case_match. Qed.

(** X1.  In every state a mounted provider reaches, whatever is called and
    whatever the network answers, the token cell equals the persisted
    token: the two are only ever written together. *)
Theorem token_cell_is_persisted_token
    (backend_url : string) (stored : option string)
    (acts : list Action) (w : World) :
  run (mount backend_url stored) acts = Some w →
  token (hooks w) = storage w.
Proof.
  pose proof (mount_token_persisted backend_url stored) as Hinit.
  revert Hinit. generalize (mount backend_url stored).
  induction acts as [| a rest IH]; intros w0 Hinit Hrun; simpl in Hrun.
  - by injection Hrun as <-.
  - destruct (step w0 a) as [w1|] eqn:Hstep; [| done].
    apply (IH w1); [| done]. by apply (step_token_persisted w0 w1 a).
Qed.

(** X1, on [two_users_session]. *)
Lemma token_cell_is_persisted_token_witness :
  ∃ w, run (mount backend_dev (Some "T0")) two_users_session = Some w
       ∧ token (hooks w) = storage w.
Proof.
  destruct (run (mount backend_dev (Some "T0")) two_users_session)
    as [w|] eqn:Hrun; [| vm_compute in Hrun; discriminate].
  exists w. split; [reflexivity |].
  exact (token_cell_is_persisted_token backend_dev (Some "T0")
           two_users_session w Hrun).
Defined.

Lemma step_loading_stays_false (w w' : World) (a : Action) :
  step w a = Some w' →
  loading (hooks w) = false → loading (hooks w') = false.
Proof.
  intros Hstep Hl. step_cases Hstep; try done.
  unfold render, fetchUser_start. by repeat case_match.
Qed.

(** X2.  Once the loading flag is down it stays down: no call and no
    answer brings the session back to [Resolving], so the gates never
    show their placeholder again. *)
Theorem loading_never_returns (acts : list Action) (w w' : World) (p : Page) :
  run w acts = Some w' →
  loading (hooks w) = false →
  loading (hooks w') = false
  ∧ status (hooks w') ≠ Resolving
  ∧ ProtectedRoute p (hooks w') ≠ LoadingBrand
  ∧ PublicRoute p (hooks w') ≠ Spinner.
Proof.
  intros Hrun Hl.
  assert (Hl' : loading (hooks w') = false).
  { revert w Hrun Hl. induction acts as [| a rest IH]; intros w Hrun Hl;
      simpl in Hrun.
    - by injection Hrun as <-.
    - destruct (step w a) as [w1|] eqn:Hstep; [| done].
      apply (IH w1); [done |]. by apply (step_loading_stays_false w w1 a). }
  unfold status, ProtectedRoute, PublicRoute. rewrite Hl'.
  repeat split; try done; by destruct (user (hooks w')).
Qed.

(** X2, on [two_users_session] after the initial check has failed. *)
Lemma loading_never_returns_witness :
  ∃ w w', step (mount backend_dev (Some "T0")) (Respond 0 (Fail network_down))
          = Some w
          ∧ run w (tail two_users_session) = Some w'
          ∧ status (hooks w') ≠ Resolving.
Proof.
  destruct (step (mount backend_dev (Some "T0")) (Respond 0 (Fail network_down)))
    as [w|] eqn:Hstep; [| vm_compute in Hstep; discriminate].
  destruct (run w (tail two_users_session)) as [w'|] eqn:Hrun.
  - exists w, w'. split; [reflexivity |]. split; [exact Hrun |].
    apply (loading_never_returns (tail two_users_session) w w' FeedPage Hrun).
    injection Hstep as <-. reflexivity.
  - injection Hstep as <-. vm_compute in Hrun. discriminate.
Defined.

End SessionRuns.

(** ** Mounting *)

Section Mounting.

(** X3.  Mounting with a persisted token that the backend confirms ends
    authenticated with the identity the backend gave and the persisted
    token kept; exactly one identity fetch has been sent, the render that
    follows sends none, and protected views are then rendered. *)
Theorem initialize_with_valid_token
    (backend_url t : string) (data : Identity) (p : Page) :
  t ≠ "" →
  ∃ w1, step (mount backend_url (Some t)) (Respond 0 (Ok (UserData data)))
        = Some w1
        ∧ status (hooks w1) = Authenticated
        ∧ user (hooks w1) = Some data
        ∧ token (hooks w1) = Some t
        ∧ storage w1 = Some t
        ∧ inflight w1 = ∅
        ∧ me_requests w1 = 1
        ∧ me_requests (render w1) = 1
        ∧ hooks (render w1) = hooks w1
        ∧ ProtectedRoute p (view (render w1)) = Children p
        ∧ PublicRoute p (view (render w1)) = Navigate "/".
Proof.
  intros Hne.
  assert (Hm : mount backend_url (Some t)
               = mkWorld backend_url (Some t) (mkHooks None (Some t) true)
                   (mkHooks None (Some t) true)
                   {[ 0 := mkRequest AuthMe (api backend_url (Some t)) ]} 1
                   [StorageGet; Http 0 (mkRequest AuthMe (api backend_url (Some t)))]).
  { unfold mount, fetchUser_start. cbn [view token].
    rewrite truthy_Some by done. reflexivity. }
  rewrite Hm. eexists. split.
  { cbn [step inflight]. rewrite lookup_singleton_eq. reflexivity. }
  unfold render. cbn [hooks view token fst fetchUser_resume setLoading setUser
                      with_hooks answered].
  destruct (decide (Some t = Some t)); [| done].
  repeat split; reflexivity.
Qed.

(** X3, at a token. *)
Lemma initialize_with_valid_token_witness :
  "T0" ≠ ""
  ∧ ∃ w1, step (mount backend_dev (Some "T0")) (Respond 0 (Ok (UserData user_a)))
          = Some w1
          ∧ status (hooks w1) = Authenticated
          ∧ user (hooks w1) = Some user_a.
Proof.
  assert (Hne : "T0" ≠ "") by discriminate.
  split; [exact Hne |].
  destruct (initialize_with_valid_token backend_dev "T0" user_a FeedPage Hne)
    as (w1 & Hstep & Hst & Hu & _).
  exists w1. auto.
Defined.

(** X4.  Mounting with nothing persisted, or with the empty string
    persisted, sends no request at all and is anonymous at once; storage
    is left as it was found.  The first render still shows the
    placeholder; the render after it redirects protected views to
    [/auth] and renders the auth view. *)
Theorem initialize_without_token
    (backend_url : string) (stored : option string) (p : Page) :
  truthy stored = false →
  log (mount backend_url stored) = [StorageGet]
  ∧ http_requests (mount backend_url stored) = 0
  ∧ inflight (mount backend_url stored) = ∅
  ∧ status (hooks (mount backend_url stored)) = Anonymous
  ∧ storage (mount backend_url stored) = stored
  ∧ ProtectedRoute p (view (mount backend_url stored)) = LoadingBrand
  ∧ http_requests (render (mount backend_url stored)) = 0
  ∧ ProtectedRoute p (view (render (mount backend_url stored)))
    = Navigate "/auth"
  ∧ PublicRoute AuthPage (view (render (mount backend_url stored)))
    = Children AuthPage.
Proof.
  intros Hf. unfold mount, fetchUser_start. cbn [view token]. rewrite Hf.
  unfold render. cbn [hooks view token setLoading with_hooks].
  destruct (decide (stored = stored)); [| done].
  repeat split; reflexivity.
Qed.

(** X4, with the empty string persisted. *)
Lemma initialize_without_token_witness :
  truthy (Some "") = false
  ∧ status (hooks (mount backend_dev (Some ""))) = Anonymous
  ∧ storage (mount backend_dev (Some "")) = Some "".
Proof.
  split; [reflexivity |].
  destruct (initialize_without_token backend_dev (Some "") FeedPage eq_refl)
    as (_ & _ & _ & Hst & Hs & _).
  split; [exact Hst | exact Hs].
Defined.

End Mounting.

(** ** Submitting the auth form *)

Section Submit.

(** X5.  A submit of the auth form that the backend accepts: the call
    goes out with the client of the current render, to the login or the
    register endpoint according to the mode; the answer's token is
    persisted, token and identity are set, the promise resolves with the
    user; the handler then toasts, navigates to [/] and lowers its own
    loading flag.  With the initial check over, the render that follows
    shows the feed and turns the auth view into a redirect. *)
Theorem accepted_submit_lands_on_the_feed
    (w : World) (isLogin : bool) (email password username fullName t : string)
    (u : Identity) :
  ∃ q w1 w2,
    step w (snd (handleSubmit_start isLogin email password username fullName))
      = Some w1
    ∧ inflight w1 !! next_id w = Some q
    ∧ config q = currentRequestClient w
    ∧ endpoint q = (if isLogin then AuthLogin email password
                    else AuthRegister email password username fullName)
    ∧ step w1 (Respond (next_id w) (Ok (TokenUser t u))) = Some w2
    ∧ hooks w2 = mkHooks (Some u) (Some t) (loading (hooks w))
    ∧ storage w2 = Some t
    ∧ log w2 = (log w ++ [Http (next_id w) q; StorageSet t;
                          Settled (next_id w) (Resolved u)])%list
    ∧ fst (handleSubmit_resume isLogin (Resolved u))
      = [ToastSuccess (if isLogin then "Welcome back!"
                       else "Account created successfully!");
         NavigateTo "/"; SetLoading false]
    ∧ (loading (hooks w) = false →
       route AppRoutes "/" = Some (ProtectedRoute FeedPage)
       ∧ ProtectedRoute FeedPage (view (render w2)) = Children FeedPage
       ∧ PublicRoute AuthPage (view (render w2)) = Navigate "/").
Proof.
  set (call := snd (handleSubmit_start isLogin email password username fullName)).
  assert (Hcall : ∃ q, step w call = Some (send q w)
                       ∧ endpoint q ≠ AuthMe
                       ∧ config q = currentRequestClient w
                       ∧ endpoint q
                         = (if isLogin then AuthLogin email password
                            else AuthRegister email password username fullName)).
  { subst call. destruct isLogin; simpl; eexists; repeat split; done. }
  destruct Hcall as (q & Hstep & Hne & Hcfg & Hep).
  destruct (login_answer_applies (send q w) (next_id w) q t u
              (send_awaited q w) Hne)
    as (w2 & Hstep2 & Hh & Hs & _ & _ & _ & Hl).
  exists q, (send q w), w2.
  split; [exact Hstep |]. split; [apply send_awaited |].
  split; [exact Hcfg |]. split; [exact Hep |]. split; [exact Hstep2 |].
  split; [exact Hh |]. split; [exact Hs |].
  split; [rewrite Hl; simpl; by rewrite <- app_assoc |].
  split; [reflexivity |].
  intros Hload. split; [reflexivity |].
  assert (Hview : view (render w2) = hooks w2).
  { unfold render, fetchUser_start. repeat case_match; reflexivity. }
  simpl in Hh. rewrite Hview, Hh, Hload. split; reflexivity.
Qed.

(** X6.  A submit that the backend rejects while the auth view is shown:
    the session stays anonymous, the handler shows the backend's detail
    (or the fallback when there is none) and does not navigate, and the
    render that follows still shows the auth view. *)
Theorem rejected_submit_stays_on_the_auth_page
    (w : World) (isLogin : bool) (email password username fullName : string)
    (e : AxiosError) :
  status (hooks w) = Anonymous →
  ∃ w1 w2,
    step w (snd (handleSubmit_start isLogin email password username fullName))
      = Some w1
    ∧ step w1 (Respond (next_id w) (Fail e)) = Some w2
    ∧ status (hooks w2) = Anonymous
    ∧ fst (handleSubmit_resume isLogin (Rejected e))
      = [ToastError (default "Something went wrong"
                       (if decide (detail e = Some "") then None else detail e));
         SetLoading false]
    ∧ (NavigateTo "/" ∉ fst (handleSubmit_resume isLogin (Rejected e)))
    ∧ PublicRoute AuthPage (view (render w2)) = Children AuthPage
    ∧ me_requests (render w2) = me_requests (render w).
Proof.
  intros Hanon.
  set (call := snd (handleSubmit_start isLogin email password username fullName)).
  assert (Hcall : ∃ q, step w call = Some (send q w) ∧ endpoint q ≠ AuthMe).
  { subst call. destruct isLogin; simpl; eexists; split; done. }
  destruct Hcall as (q & Hstep & Hne).
  destruct (failed_answer_keeps_session (send q w) (next_id w) q e
              (send_awaited q w) Hne) as (w2 & Hstep2 & Hh & _ & Hv & Hl).
  simpl in Hh, Hv.
  exists (send q w), w2.
  split; [exact Hstep |]. split; [exact Hstep2 |].
  split; [by rewrite Hh |].
  split.
  { unfold handleSubmit_resume, error_message. simpl.
    destruct (detail e) as [d|]; [| by case_decide].
    destruct (String.eqb_spec d "") as [-> | Hd]; case_decide; try done.
    congruence. }
  split.
  { simpl. rewrite !elem_of_cons. intros [? | [? | ?]]; try done.
    by apply elem_of_nil in H. }
  assert (Hview : ∀ x, view (render x) = hooks x).
  { intros x. unfold render, fetchUser_start. repeat case_match; reflexivity. }
  split.
  { rewrite Hview, Hh. unfold status in Hanon. unfold PublicRoute.
    destruct (loading (hooks w)); [done |].
    by destruct (user (hooks w)). }
  assert (Hq : count_events is_me_request [Http (next_id w) q] = 0).
  { simpl. by destruct (endpoint q). }
  unfold me_requests. rewrite !render_log, Hh, Hv, Hl.
  simpl log. rewrite !count_events_app, Hq.
  repeat case_match; simpl; lia.
Qed.

(** X6, on a wrong password typed at a fresh anonymous session. *)
Lemma rejected_submit_stays_on_the_auth_page_witness :
  status (hooks (render (mount backend_dev None))) = Anonymous
  ∧ ∃ w1 w2,
      step (render (mount backend_dev None)) (CallLogin "a@b.com" "wrong")
        = Some w1
      ∧ step w1 (Respond 0 (Fail bad_credentials)) = Some w2
      ∧ PublicRoute AuthPage (view (render w2)) = Children AuthPage.
Proof.
  split; [reflexivity |].
  destruct (rejected_submit_stays_on_the_auth_page
              (render (mount backend_dev None)) true "a@b.com" "wrong" "" ""
              bad_credentials eq_refl)
    as (w1 & w2 & H1 & H2 & _ & _ & _ & H3 & _).
  exists w1, w2. split; [exact H1 |]. split; [exact H2 | exact H3].
Defined.

End Submit.

(** ** The identity check that follows a login *)

Section Recheck.

(** The world right after the render that follows a successful answer
    carrying a token other than the rendered one. *)
Lemma render_after_login (w w1 : World) (t : string) :
  t ≠ "" →
  token (hooks w1) = Some t →
  token (view w1) ≠ Some t →
  render w1
  = send (mkRequest AuthMe (api (backend w1) (Some t)))
      (mkWorld (backend w1) (storage w1) (hooks w1) (hooks w1) (inflight w1)
               (next_id w1) (log w1 ++ [StorageGet])).
Proof.
  intros Hne Htok Hview. unfold render, fetchUser_start, currentRequestClient.
  cbn [view token backend]. rewrite Htok.
  destruct (decide (Some t = token (view w1))); [by exfalso; eauto |].
  by rewrite truthy_Some.
Qed.

(** X7.  After a login or register answer installs a token other than the
    rendered one, the next render sends one identity fetch with the new
    token.  If that fetch fails, for whatever reason, the session that
    had just logged in is anonymous again and the new token is removed
    from storage; if it succeeds, the identity of the login answer is
    replaced by the fetched one and the token stays. *)
Theorem recheck_after_login
    (w : World) (id : nat) (q : Request) (t : string) (u : Identity) :
  inflight w !! id = Some q →
  endpoint q ≠ AuthMe →
  t ≠ "" →
  token (view w) ≠ Some t →
  ∃ w1, step w (Respond id (Ok (TokenUser t u))) = Some w1
        ∧ inflight (render w1) !! next_id w
          = Some (mkRequest AuthMe (api (backend w) (Some t)))
        ∧ me_requests (render w1) = S (me_requests w)
        ∧ (∀ e, ∃ w3, step (render w1) (Respond (next_id w) (Fail e)) = Some w3
                      ∧ user (hooks w3) = None
                      ∧ token (hooks w3) = None
                      ∧ storage w3 = None
                      ∧ status (hooks w3) = Anonymous)
        ∧ (∀ data, ∃ w3, step (render w1) (Respond (next_id w) (Ok (UserData data)))
                         = Some w3
                         ∧ user (hooks w3) = Some data
                         ∧ token (hooks w3) = Some t
                         ∧ storage w3 = Some t).
Proof.
  intros Hq Hne Ht Hview.
  assert (Hw1 : ∃ w1, step w (Respond id (Ok (TokenUser t u))) = Some w1
                      ∧ token (hooks w1) = Some t ∧ view w1 = view w
                      ∧ backend w1 = backend w ∧ next_id w1 = next_id w
                      ∧ storage w1 = Some t
                      ∧ me_requests w1 = me_requests w).
  { simpl. rewrite Hq.
    destruct (endpoint q); [done | |]; eexists; (split; [reflexivity |]);
      unfold me_requests; simpl; rewrite <- !app_assoc, !count_events_app;
      simpl; repeat split; lia. }
  destruct Hw1 as (w1 & Hstep & Htok & Hv & Hb & Hn & Hs & Hme).
  exists w1. split; [exact Hstep |].
  rewrite (render_after_login w1 w1 t Ht Htok) by (by rewrite Hv).
  rewrite Hb, Hn.
  split; [apply lookup_insert_eq |].
  split.
  { unfold me_requests in *. simpl. rewrite !count_events_app, Hme. simpl. lia. }
  split.
  - intros e. eexists. split.
    { cbn [step inflight send emit]. rewrite lookup_insert_eq. reflexivity. }
    repeat split; reflexivity.
  - intros data. eexists. split.
    { cbn [step inflight send emit]. rewrite lookup_insert_eq. reflexivity. }
    simpl. by rewrite Htok, Hs.
Qed.

(** X7, for a session on token [T0] that logs in again and gets [T1]. *)
Lemma recheck_after_login_witness :
  ∃ w w1 w3, run (mount backend_dev (Some "T0"))
                 [Respond 0 (Ok (UserData user_a)); Render;
                  CallLogin "b@b.com" "secret"] = Some w
             ∧ step w (Respond 1 (Ok (TokenUser "T1" user_b))) = Some w1
             ∧ step (render w1) (Respond 2 (Fail network_down)) = Some w3
             ∧ status (hooks w3) = Anonymous
             ∧ storage w3 = None.
Proof.
  destruct (run (mount backend_dev (Some "T0"))
              [Respond 0 (Ok (UserData user_a)); Render;
               CallLogin "b@b.com" "secret"]) as [w|] eqn:Hrun;
    [| vm_compute in Hrun; discriminate].
  assert (Hw : inflight w !! 1
               = Some (mkRequest (AuthLogin "b@b.com" "secret")
                         (api backend_dev (Some "T0")))
               ∧ token (view w) = Some "T0" ∧ next_id w = 2).
  { injection Hrun as <-. repeat split; reflexivity. }
  destruct Hw as (Hq & Hv & Hn).
  destruct (recheck_after_login w 1 _ "T1" user_b Hq)
    as (w1 & Hstep & _ & _ & Hfail & _);
    [discriminate | discriminate | rewrite Hv; discriminate |].
  destruct (Hfail network_down) as (w3 & Hstep3 & _ & _ & Hs & Hst).
  rewrite Hn in Hstep3.
  exists w, w1, w3. split; [reflexivity |]. auto.
Defined.

End Recheck.

(** ** What the requests carry *)

Section Requests.

Lemma issued_mono (stored tok : option string) (l k : list Event) :
  issued stored l tok → issued stored (l ++ k) tok.
Proof.
  intros [H | [H | (t & H & Hin)]]; [by left | by right; left |].
  right; right. exists t. split; [done |]. apply elem_of_app. by left.
Qed.

Lemma api_bearer_of (b : string) (tok : option string) :
  bearer_of (headers (api b tok)) tok.
Proof.
  unfold bearer_of, api. cbn [headers].
  destruct tok as [t|]; [| by left].
  destruct (truthy (Some t)) eqn:Htr; [| by left].
  right. exists t. repeat split; try done.
  intros ->. discriminate.
Qed.

(** What one step adds to the log, and where the tokens of the new state
    come from. *)
Lemma step_log_shape (w w' : World) (a : Action) :
  step w a = Some w' →
  backend w' = backend w
  ∧ ∃ l, log w' = (log w ++ l)%list
         ∧ (token (hooks w') = token (hooks w) ∨ token (hooks w') = None
            ∨ ∃ t, token (hooks w') = Some t ∧ StorageSet t ∈ l)
         ∧ (token (view w') = token (view w) ∨ token (view w') = token (hooks w))
         ∧ (∀ id q, Http id q ∈ l →
                    config q = api (backend w) (token (view w))
                    ∨ config q = api (backend w) (token (hooks w))).
Proof.
  intros Hstep. step_cases Hstep.
  - split; [unfold render, fetchUser_start; by repeat case_match |].
    eexists. split; [apply render_log |].
    split; [left; unfold render, fetchUser_start; by repeat case_match |].
    split; [right; unfold render, fetchUser_start; by repeat case_match |].
    intros id q Hin. right.
    apply elem_of_cons in Hin as [Hin | Hin]; [done |].
    repeat case_match; try (by apply elem_of_nil in Hin).
    apply list_elem_of_singleton in Hin. by injection Hin as _ ->.
  - split; [done |]. eexists. split; [reflexivity |].
    split; [by left |]. split; [by left |].
    intros id q Hin. left. apply list_elem_of_singleton in Hin.
    by injection Hin as _ ->.
  - split; [done |]. eexists. split; [reflexivity |].
    split; [by left |]. split; [by left |].
    intros id q Hin. left. apply list_elem_of_singleton in Hin.
    by injection Hin as _ ->.
  - split; [done |]. eexists. split; [reflexivity |].
    split; [by right; left |]. split; [by left |].
    intros id q Hin. by apply list_elem_of_singleton in Hin.
  - split; [done |]. exists []. split; [by rewrite app_nil_r |].
    split; [by left |]. split; [by left |].
    intros id q Hin. by apply elem_of_nil in Hin.
  - split; [done |]. exists []. split; [by rewrite app_nil_r |].
    split; [by left |]. split; [by left |].
    intros id' q' Hin. by apply elem_of_nil in Hin.
  - split; [done |]. eexists. split; [simpl; by rewrite <- app_assoc |].
    split; [by right; left |]. split; [by left |].
    intros id' q' Hin. no_http_in Hin.
  - split; [done |]. eexists. split; [simpl; by rewrite <- app_assoc |].
    split; [right; right; eexists; split; [done | apply list_elem_of_here] |].
    split; [by left |]. intros id' q' Hin. no_http_in Hin.
  - split; [done |]. eexists. split; [reflexivity |].
    split; [by left |]. split; [by left |].
    intros id' q' Hin. no_http_in Hin.
  - split; [done |]. eexists. split; [simpl; by rewrite <- app_assoc |].
    split; [right; right; eexists; split; [done | apply list_elem_of_here] |].
    split; [by left |]. intros id' q' Hin. no_http_in Hin.
  - split; [done |]. eexists. split; [reflexivity |].
    split; [by left |]. split; [by left |].
    intros id' q' Hin. no_http_in Hin.
Qed.

Lemma step_requests_inv (b : string) (stored : option string)
    (w w' : World) (a : Action) :
  step w a = Some w' → requests_inv b stored w → requests_inv b stored w'.
Proof.
  intros Hstep (Hb & Hh & Hv & Hlog).
  destruct (step_log_shape w w' a Hstep) as (Hb' & l & Hl & Hth & Htv & Hnew).
  assert (Hh' : issued stored (log w') (token (hooks w'))).
  { rewrite Hl. destruct Hth as [-> | [-> | (t & -> & Hin)]].
    - by apply issued_mono.
    - by left.
    - right; right. exists t. split; [done |]. apply elem_of_app. by right. }
  split; [congruence |]. split; [exact Hh' |].
  split.
  { destruct Htv as [-> | ->]; rewrite Hl; by apply issued_mono. }
  intros id q Hin. rewrite Hl in Hin. apply elem_of_app in Hin as [Hin | Hin].
  - destruct (Hlog id q Hin) as (tok & Hcfg & Hiss).
    exists tok. split; [done |]. rewrite Hl. by apply issued_mono.
  - destruct (Hnew id q Hin) as [Hcfg | Hcfg]; rewrite Hb in Hcfg.
    + exists (token (view w)). split; [done |]. rewrite Hl. by apply issued_mono.
    + exists (token (hooks w)). split; [done |]. rewrite Hl. by apply issued_mono.
Qed.

Lemma mount_requests_inv (b : string) (stored : option string) :
  requests_inv b stored (mount b stored).
Proof.
  unfold mount, fetchUser_start, currentRequestClient. cbn [view token backend].
  destruct (truthy stored); (split; [done |]); (split; [by right; left |]);
    (split; [by right; left |]); intros id q Hin.
  - exists stored. split; [| by right; left].
    simpl in Hin. apply elem_of_cons in Hin as [Hin | Hin]; [done |].
    apply list_elem_of_singleton in Hin. by injection Hin as _ ->.
  - simpl in Hin. by apply list_elem_of_singleton in Hin.
Qed.

(** X8.  Every request the session manager has sent goes to
    [REACT_APP_BACKEND_URL + '/api'] and carries either no header at all
    or exactly one, [Authorization: Bearer t], where [t] is not empty and
    is the token persisted when the provider mounted or one that an
    accepted login or register wrote to storage. *)
Theorem requests_carry_issued_tokens
    (backend_url : string) (stored : option string)
    (acts : list Action) (w : World) (id : nat) (q : Request) :
  run (mount backend_url stored) acts = Some w →
  Http id q ∈ log w →
  baseURL (config q) = backend_url ++ "/api"
  ∧ ∃ tok, bearer_of (headers (config q)) tok
           ∧ issued stored (log w) tok.
Proof.
  intros Hrun Hin.
  assert (Hinv : requests_inv backend_url stored w).
  { pose proof (mount_requests_inv backend_url stored) as Hinit.
    revert Hinit Hrun. generalize (mount backend_url stored).
    induction acts as [| a rest IH]; intros w0 Hinit Hrun; simpl in Hrun.
    - by injection Hrun as <-.
    - destruct (step w0 a) as [w1|] eqn:Hstep; [| done].
      apply (IH w1); [| done]. by apply (step_requests_inv _ _ w0 w1 a). }
  destruct Hinv as (_ & _ & _ & Hlog).
  destruct (Hlog id q Hin) as (tok & -> & Hiss).
  split; [reflexivity |]. exists tok. split; [apply api_bearer_of | exact Hiss].
Qed.

(** X8, on the identity fetch that follows the second login of
    [two_users_session]. *)
Lemma requests_carry_issued_tokens_witness :
  ∃ w q, run (mount backend_dev (Some "T0")) two_users_session = Some w
         ∧ Http 2 q ∈ log w
         ∧ baseURL (config q) = "http://127.0.0.1:8000/api".
Proof.
  destruct (run (mount backend_dev (Some "T0")) two_users_session)
    as [w|] eqn:Hrun; [| vm_compute in Hrun; discriminate].
  assert (Hin : Http 2 (mkRequest AuthMe (api backend_dev (Some "T1"))) ∈ log w).
  { assert (Hl : log <$> run (mount backend_dev (Some "T0")) two_users_session
                 = Some (log w)) by (by rewrite Hrun).
    vm_compute in Hl. injection Hl as Hl.
    match type of Hl with ?l = _ => change (l = log w) in Hl end.
    rewrite <- Hl. vm_compute. repeat constructor. }
  exists w, (mkRequest AuthMe (api backend_dev (Some "T1"))).
  split; [reflexivity |]. split; [exact Hin |].
  apply (requests_carry_issued_tokens backend_dev (Some "T0")
           two_users_session w 2 _ Hrun Hin).
Defined.

End Requests.

(** ** Profile edits and logging out *)

Section EditsAndLogout.

(** X9.  Two profile edits in a row are one edit with the merged fields,
    the later edit winning on the fields both name; repeating an edit
    changes nothing more; and an edit without fields leaves a held
    identity as it is. *)
Theorem updateUser_composes (w : World) (d1 d2 : Identity) :
  updateUser d2 (updateUser d1 w) = updateUser (d2 ∪ d1) w
  ∧ updateUser d1 (updateUser d1 w) = updateUser d1 w
  ∧ (is_Some (user (hooks w)) → updateUser ∅ w = w).
Proof.
  unfold updateUser, setUser, with_hooks, spread. simpl.
  split; [by rewrite (assoc_L (∪)) |].
  split; [by rewrite (assoc_L (∪)), (idemp_L (∪)) |].
  intros [prev Hprev]. destruct w as [b s [u t l] v i n lg]. simpl in *.
  subst u. simpl. by rewrite (left_id_L ∅ (∪)).
Qed.

(** X10.  The log-out button, pressed once the initial check is over:
    token, identity and persisted token are cleared without any request,
    the handler navigates to [/auth], and at the next render that route
    shows the auth view, every protected view redirects to it, and the
    re-run of the identity check sends nothing. *)
Theorem logout_click_lands_on_the_auth_page (w : World) (p : Page) :
  loading (hooks w) = false →
  snd (MainLayout.handleLogoutClick w) = "/auth"
  ∧ route AppRoutes (snd (MainLayout.handleLogoutClick w))
    = Some (PublicRoute AuthPage)
  ∧ step w CallLogout = Some (fst (MainLayout.handleLogoutClick w))
  ∧ hooks (fst (MainLayout.handleLogoutClick w)) = mkHooks None None false
  ∧ storage (fst (MainLayout.handleLogoutClick w)) = None
  ∧ inflight (fst (MainLayout.handleLogoutClick w)) = inflight w
  ∧ http_requests (render (fst (MainLayout.handleLogoutClick w)))
    = http_requests w
  ∧ hooks (render (fst (MainLayout.handleLogoutClick w)))
    = mkHooks None None false
  ∧ PublicRoute AuthPage (view (render (fst (MainLayout.handleLogoutClick w))))
    = Children AuthPage
  ∧ ProtectedRoute p (view (render (fst (MainLayout.handleLogoutClick w))))
    = Navigate "/auth".
Proof.
  intros Hl. unfold MainLayout.handleLogoutClick. cbn [fst snd].
  assert (Hh : hooks (logout w) = mkHooks None None false).
  { unfold logout. simpl. by rewrite Hl. }
  assert (Hr : hooks (render (logout w)) = mkHooks None None false
               ∧ view (render (logout w)) = mkHooks None None false).
  { unfold render, fetchUser_start. rewrite Hh.
    repeat case_match; simpl; split; done. }
  destruct Hr as [Hr Hv].
  repeat (split; [done |]).
  split.
  { unfold http_requests. rewrite render_log, Hh. cbn [token truthy].
    simpl log. rewrite !count_events_app.
    destruct (decide _); simpl; lia. }
  split; [exact Hr |]. by rewrite Hv.
Qed.

(** X10, for the session that [initialize] confirmed. *)
Lemma logout_click_lands_on_the_auth_page_witness :
  ∃ w, step (mount backend_dev (Some "T0")) (Respond 0 (Ok (UserData user_a)))
       = Some w
       ∧ loading (hooks w) = false
       ∧ PublicRoute AuthPage (view (render (fst (MainLayout.handleLogoutClick w))))
         = Children AuthPage.
Proof.
  eexists. split; [reflexivity |]. split; [reflexivity |].
  eapply logout_click_lands_on_the_auth_page with (p := FeedPage).
  reflexivity.
Defined.

End EditsAndLogout.

(** ** The route table *)

Section RouteTable.

(** X11.  No route of the table ever renders a page in the wrong status:
    the auth page is rendered only by the [/auth] route and only to an
    anonymous session, every other page only to an authenticated one, and
    while the session is resolving no page is rendered at all. *)
Theorem routes_render_pages_by_status
    (pattern : string) (el : Hooks → Element) (ctx : Hooks) (p : Page) :
  (pattern, el) ∈ AppRoutes →
  el ctx = Children p →
  (p = AuthPage ∧ pattern = "/auth" ∧ status ctx = Anonymous)
  ∨ (p ≠ AuthPage ∧ pattern ≠ "/auth" ∧ status ctx = Authenticated).
Proof.
  intros Hin Hel. unfold AppRoutes in Hin.
  repeat (apply elem_of_cons in Hin as [Hin | Hin];
          [injection Hin as -> ->;
           unfold ProtectedRoute, PublicRoute, status in *;
           destruct (loading ctx); [discriminate Hel |];
           destruct (user ctx); simpl in Hel; try discriminate Hel;
           injection Hel as <-; (by left) || (by right) |]).
  by apply elem_of_nil in Hin.
Qed.

(** X11, at the feed route and an authenticated session. *)
Lemma routes_render_pages_by_status_witness :
  ("/", ProtectedRoute FeedPage) ∈ AppRoutes
  ∧ ProtectedRoute FeedPage (mkHooks (Some user_a) (Some "T0") false)
    = Children FeedPage
  ∧ status (mkHooks (Some user_a) (Some "T0") false) = Authenticated.
Proof.
  assert (Hin : ("/", ProtectedRoute FeedPage) ∈ AppRoutes).
  { unfold AppRoutes. apply list_elem_of_further, list_elem_of_here. }
  split; [exact Hin |]. split; [reflexivity |].
  destruct (routes_render_pages_by_status "/" (ProtectedRoute FeedPage)
              (mkHooks (Some user_a) (Some "T0") false) FeedPage Hin eq_refl)
    as [(Hp & _) | (_ & _ & Hst)]; [discriminate Hp | exact Hst].
Defined.

(** X12.  Redirects never loop.  From every route of the table the
    redirects end within two hops: at a placeholder while the session is
    resolving, at the auth page for an anonymous session, at a page other
    than the auth page for an authenticated one. *)
Theorem redirects_settle
    (pattern : string) (el : Hooks → Element) (ctx : Hooks) :
  (pattern, el) ∈ AppRoutes →
  ∃ final, follow_redirects 2 (el ctx) ctx = Some final
           ∧ match status ctx with
             | Resolving => final = LoadingBrand ∨ final = Spinner
             | Anonymous => final = Children AuthPage
             | Authenticated => ∃ p, final = Children p ∧ p ≠ AuthPage
             end.
Proof.
  intros Hin. unfold AppRoutes in Hin.
  repeat (apply elem_of_cons in Hin as [Hin | Hin];
          [injection Hin as -> ->;
           unfold ProtectedRoute, PublicRoute, status;
           destruct ctx as [[u|] t [|]]; simpl;
           eexists; (split; [reflexivity |]); eauto |]).
  by apply elem_of_nil in Hin.
Qed.

(** X12, from the catch-all route for an anonymous visitor. *)
Lemma redirects_settle_witness :
  ("*", fun _ : Hooks => Navigate "/") ∈ AppRoutes
  ∧ follow_redirects 2 (Navigate "/") (mkHooks None None false)
    = Some (Children AuthPage).
Proof.
  assert (Hin : ("*", fun _ : Hooks => Navigate "/") ∈ AppRoutes).
  { unfold AppRoutes. do 9 apply list_elem_of_further.
    apply list_elem_of_here. }
  split; [exact Hin |].
  destruct (redirects_settle "*" (fun _ => Navigate "/")
              (mkHooks None None false) Hin) as (final & Hf & Hst).
  simpl in Hst. by rewrite Hf, Hst.
Defined.

End RouteTable.

(** ** The navigation and the sidebar of the main layout *)

Section Layout.

Lemma prefix_spec (s1 s2 : string) :
  String.prefix s1 s2 = true ↔ ∃ rest, s2 = s1 ++ rest.
Proof.
  revert s2. induction s1 as [| a s1 IH]; intros s2.
  - split; [intros _; by exists s2 | by destruct s2].
  - destruct s2 as [| b s2]; simpl; [split; [done | by intros [rest Hr]] |].
    destruct (Ascii.ascii_dec a b) as [-> | Hne].
    + rewrite IH. split; intros [rest Hr]; exists rest.
      * by rewrite Hr.
      * change (String b s2 = String b (s1 ++ rest)) in Hr. congruence.
    + split; [done |]. intros [rest Hr].
      change (String b s2 = String a (s1 ++ rest)) in Hr. congruence.
Qed.

(** X13.  An entry of the navigation is drawn as active exactly when it
    is the home entry and the location is [/], or it is another entry and
    the location starts with its path; so a conversation keeps Messages
    active, and the home entry is active nowhere but at [/]. *)
Theorem isActive_spec (pathname path : string) :
  (MainLayout.isActive pathname path = true
   ↔ (path = "/" ∧ pathname = "/")
     ∨ (path ≠ "/" ∧ ∃ rest, pathname = path ++ rest))
  ∧ (pathname ≠ "/" → MainLayout.isActive pathname "/" = false)
  ∧ (∀ conversationId,
       MainLayout.isActive ("/messages/" ++ conversationId) "/messages" = true).
Proof.
  unfold MainLayout.isActive. split; [| split].
  - destruct (String.eqb_spec path "/") as [-> | Hne].
    + destruct (String.eqb_spec pathname "/") as [-> | Hp]; split;
        try (by left); try done; intros [[_ ?] | [? _]]; done.
    + rewrite prefix_spec. split; [by right |].
      by intros [[? _] | [_ ?]].
  - intros Hp. simpl. by destruct (String.eqb_spec pathname "/").
  - intros c. reflexivity.
Qed.

Lemma isActive_true (pathname path : string) :
  MainLayout.isActive pathname path = true →
  ∃ rest, pathname = path ++ rest ∧ (path = "/" → rest = "").
Proof.
  unfold MainLayout.isActive.
  destruct (String.eqb_spec path "/") as [-> | Hne].
  - destruct (String.eqb_spec pathname "/") as [-> | Hp]; [| done].
    intros _. by exists "".
  - rewrite prefix_spec. intros [rest ->]. by exists rest.
Qed.

(** X14.  Whatever the location and whatever the user name, at most one
    entry of the navigation is drawn as active, and at [/] it is the home
    entry. *)
Theorem at_most_one_active_item (pathname username_text : string) :
  (length (activeItems pathname username_text) ≤ 1)%nat
  ∧ activeItems "/" username_text = [MainLayout.mkNav "/" "Home"].
Proof.
  split; [| reflexivity].
  unfold activeItems, MainLayout.navItems.
  cbn [List.filter MainLayout.path].
  destruct (MainLayout.isActive pathname "/") eqn:H0,
           (MainLayout.isActive pathname "/search") eqn:H1,
           (MainLayout.isActive pathname "/explore") eqn:H2,
           (MainLayout.isActive pathname "/notifications") eqn:H3,
           (MainLayout.isActive pathname "/messages") eqn:H4,
           (MainLayout.isActive pathname ("/profile/" ++ username_text)) eqn:H5;
    cbn [length]; try lia; exfalso;
    repeat match goal with
      | H : MainLayout.isActive _ _ = true |- _ =>
          apply isActive_true in H as (? & H & ?)
      | H : MainLayout.isActive _ _ = false |- _ => clear H
      | H : "/" = "/" → _ |- _ => specialize (H eq_refl)
      end;
    subst; cbv [String.append] in *; congruence.
Qed.

Lemma markFollowing_spec (userId : option JsVal) (u : gmap string JsVal)
    (k : string) :
  MainLayout.markFollowing userId u !! "id" = u !! "id"
  ∧ (u !! "id" = userId →
     MainLayout.markFollowing userId u !! "is_following" = Some (JBool true))
  ∧ (u !! "id" ≠ userId → MainLayout.markFollowing userId u = u)
  ∧ (k ≠ "is_following" → MainLayout.markFollowing userId u !! k = u !! k)
  ∧ MainLayout.markFollowing userId (MainLayout.markFollowing userId u)
    = MainLayout.markFollowing userId u.
Proof.
  unfold MainLayout.markFollowing.
  destruct (decide (u !! "id" = userId)) as [Heq | Hne].
  - rewrite lookup_insert_ne by done.
    rewrite decide_True by done.
    repeat split; try done.
    + intros _. apply lookup_insert_eq.
    + intros Hk. by rewrite lookup_insert_ne.
    + apply insert_insert_eq.
  - rewrite decide_False by done. repeat split; done.
Qed.

(** X15.  An accepted follow click changes the suggestions in place:
    same number, same order, same ids; the entries with the clicked id
    get [is_following] true and nothing else changed, the others are
    untouched; tags and loading flag stay; a second accepted click on the
    same id changes nothing more, and a rejected click changes nothing. *)
Theorem follow_marks_matching_users
    (userId : option JsVal) (s : MainLayout.Sidebar) (e : AxiosError) :
  length (MainLayout.suggestedUsers
            (MainLayout.handleFollow_resume userId (inl tt) s))
  = length (MainLayout.suggestedUsers s)
  ∧ (∀ i u,
       MainLayout.suggestedUsers s !! i = Some u →
       ∃ u', MainLayout.suggestedUsers
               (MainLayout.handleFollow_resume userId (inl tt) s) !! i = Some u'
             ∧ u' !! "id" = u !! "id"
             ∧ (u !! "id" = userId → u' !! "is_following" = Some (JBool true))
             ∧ (u !! "id" ≠ userId → u' = u)
             ∧ (∀ k, k ≠ "is_following" → u' !! k = u !! k))
  ∧ MainLayout.trendingTags (MainLayout.handleFollow_resume userId (inl tt) s)
    = MainLayout.trendingTags s
  ∧ MainLayout.loading (MainLayout.handleFollow_resume userId (inl tt) s)
    = MainLayout.loading s
  ∧ MainLayout.handleFollow_resume userId (inl tt)
      (MainLayout.handleFollow_resume userId (inl tt) s)
    = MainLayout.handleFollow_resume userId (inl tt) s
  ∧ MainLayout.handleFollow_resume userId (inr e) s = s.
Proof.
  unfold MainLayout.handleFollow_resume. simpl.
  split; [apply length_map |].
  split.
  { intros i u Hi. exists (MainLayout.markFollowing userId u).
    split; [by rewrite list_lookup_fmap, Hi |].
    destruct (markFollowing_spec userId u "id") as (H1 & H2 & H3 & _ & _).
    repeat split; try done.
    intros k Hk. by destruct (markFollowing_spec userId u k) as (_ & _ & _ & H4 & _);
      apply H4. }
  repeat split; try done.
  f_equal. rewrite <- list_fmap_compose. apply list_fmap_ext.
  intros i u _. simpl. by destruct (markFollowing_spec userId u "id") as (_ & _ & _ & _ & H5).
Qed.

Lemma handleFollow_lengths (userId : option JsVal) (r : unit + AxiosError)
    (s : MainLayout.Sidebar) :
  length (MainLayout.suggestedUsers (MainLayout.handleFollow_resume userId r s))
  = length (MainLayout.suggestedUsers s)
  ∧ MainLayout.trendingTags (MainLayout.handleFollow_resume userId r s)
    = MainLayout.trendingTags s
  ∧ MainLayout.loading (MainLayout.handleFollow_resume userId r s)
    = MainLayout.loading s.
Proof. destruct r; simpl; [by rewrite length_map | done]. Qed.

(** X16.  The sidebar never lists more than five suggestions nor more
    than five tags, whatever the backend sent and however many follow
    clicks were answered since; its loading flag is down once the fetch
    has ended either way; and when either of the two fetches failed,
    neither list is filled, also not from the fetch that succeeded. *)
Theorem sidebar_shows_at_most_five
    (usersRes tagsRes : list (gmap string JsVal) + AxiosError)
    (follows : list (option JsVal * (unit + AxiosError))) :
  (length (MainLayout.suggestedUsers (sidebar_after usersRes tagsRes follows)) ≤ 5)%nat
  ∧ (length (MainLayout.trendingTags (sidebar_after usersRes tagsRes follows)) ≤ 5)%nat
  ∧ MainLayout.loading (sidebar_after usersRes tagsRes follows) = false
  ∧ ((∃ e, usersRes = inr e) ∨ (∃ e, tagsRes = inr e) →
     MainLayout.suggestedUsers (sidebar_after usersRes tagsRes follows) = []
     ∧ MainLayout.trendingTags (sidebar_after usersRes tagsRes follows) = []).
Proof.
  unfold sidebar_after.
  set (s0 := MainLayout.fetchData_resume usersRes tagsRes MainLayout.initialSidebar).
  assert (H0 : (length (MainLayout.suggestedUsers s0) ≤ 5)%nat
               ∧ (length (MainLayout.trendingTags s0) ≤ 5)%nat
               ∧ MainLayout.loading s0 = false
               ∧ ((∃ e, usersRes = inr e) ∨ (∃ e, tagsRes = inr e) →
                  length (MainLayout.suggestedUsers s0) = 0
                  ∧ MainLayout.trendingTags s0 = [])).
  { subst s0. destruct usersRes as [us|], tagsRes as [ts|]; simpl;
      rewrite ?length_take; (split; [lia |]); (split; [lia |]);
      (split; [done |]); intros [[e He] | [e He]]; done. }
  clearbody s0. revert s0 H0.
  induction follows as [| [uid r] rest IH]; intros s0 (Hu & Ht & Hl & Hf); simpl.
  - do 3 (split; [done |]). intros Hn. destruct (Hf Hn) as [Hlen ->].
    split; [by apply nil_length_inv | done].
  - destruct (handleFollow_lengths uid r s0) as (Hlu & Hlt & Hll).
    apply IH. rewrite Hlu, Hlt, Hll. do 3 (split; [done |]). exact Hf.
Qed.

End Layout.
